(** * diaspora-server: the request-to-operation translation layer

    A shallow embedding of the two source files of the repository:

    - [src/apiGenerator.ts]: the static [ApiGenerator.parseQuery], which
      decodes every query-string value as JSON and separates the options
      from the search clause, the constructor, which defaults the
      configuration of each exposed model, and [setIdFromIdHash];
    - the Express router ([handlers] and its own [parseQuery]), which maps
      the four HTTP verbs of the singular and of the plural route of a model
      onto the operations of the model layer, and the discovery document
      of its root route.

    JavaScript objects used as dictionaries are finite maps from strings;
    JSON values are an inductive type nested over those maps.  The built-ins
    [JSON.parse] and [JSON.stringify] and the Diaspora model layer are
    external to the repository: the development is parametric in them
    (classes [JsonEngine] and [ModelLayer]), and a reference instance of each
    is given to evaluate the handlers on concrete requests. *)

From Stdlib Require Import ZArith Ascii.
From stdpp Require Import gmap strings list fin_maps pretty.

#[local] Set Warnings "-register-all".
#[local] Open Scope string_scope.

(** ** JavaScript values *)

(** A JSON value; an object is a finite map, so that two objects with the
    same entries are equal whatever the order they were written in. *)
Inductive json : Type :=
  | JNull
  | JBool (b : bool)
  | JNumber (n : Z)
  | JString (s : string)
  | JArray (l : list json)
  | JObject (o : gmap string json).

#[global] Instance json_eq_dec : EqDecision json.
Proof.
  refine (fix go (x y : json) {struct x} : Decision (x = y) :=
    let _ : EqDecision json := @go in
    match x, y with
    | JNull, JNull => left _
    | JBool a, JBool b => cast_if (decide (a = b))
    | JNumber a, JNumber b => cast_if (decide (a = b))
    | JString a, JString b => cast_if (decide (a = b))
    | JArray a, JArray b => cast_if (decide (a = b))
    | JObject a, JObject b => cast_if (decide (a = b))
    | _, _ => right _
    end); abstract congruence.
Defined.

(** How an evaluation ends: with a value, or with a thrown exception (for a
    promise: fulfilled, or rejected). *)
Inductive completion (E A : Type) : Type :=
  | Returns (a : A)
  | Throws (e : E).
Arguments Returns {E A} a.
Arguments Throws {E A} e.

Definition returned {E A} (c : completion E A) : option A :=
  match c with Returns a => Some a | Throws _ => None end.

Definition thrown {E A} (c : completion E A) : option E :=
  match c with Returns _ => None | Throws e => Some e end.

(** The built-in JSON codec, and the texts of the engine.
    [error_toString e] is what the template literal [`${ e }`] yields for
    the [SyntaxError] thrown by [JSON.parse], and [not_a_function] what it
    yields for the [TypeError] thrown when [queryObj.hasOwnProperty] is
    called while it is no function. *)
Class JsonEngine := {
  SyntaxError : Type;
  JSON_parse : string → completion SyntaxError json;
  JSON_stringify : json → string;
  error_toString : SyntaxError → string;
  not_a_function : string;
}.

(** ** The functions of lodash the sources call *)

Module lodash.

(** [_.pick(object, paths)], for paths that are plain keys. *)
Definition pick {A} (object : gmap string A) (paths : list string) : gmap string A :=
  filter (λ kv, kv.1 ∈ paths) object.

(** [_.omit(object, paths)], for paths that are plain keys. *)
Definition omit {A} (object : gmap string A) (paths : list string) : gmap string A :=
  filter (λ kv, kv.1 ∉ paths) object.

(** [_.get(object, path, defaultValue)], for a path that is a plain key. *)
Definition get {A} (object : gmap string A) (path : string) (defaultValue : A) : A :=
  default defaultValue (object !! path).

(** [_.mapValues(object, iteratee)] for an iteratee that may throw: the
    first exception met aborts the whole mapping.  Which key is visited
    first is the enumeration order of the object, which a finite map does
    not record; the order of [map_to_list] stands for it. *)
Definition mapValues {E A B} (object : gmap string A)
    (iteratee : A → string → completion E B) : completion E (gmap string B) :=
  let results := map_imap (λ key val, Some (iteratee val key)) object in
  match omap (λ kr, thrown kr.2) (map_to_list results) with
  | e :: _ => Throws e
  | [] => Returns (omap returned results)
  end.

(** [_.isEmpty(value)]: [null], booleans and numbers are empty; a string or
    an array is empty when its length is zero; an object when it has no
    own enumerable key. *)
Definition isEmpty (value : json) : bool :=
  match value with
  | JNull | JBool _ | JNumber _ => true
  | JString s => bool_decide (String.length s = 0)
  | JArray l => bool_decide (length l = 0)
  | JObject o => bool_decide (size o = 0)
  end.

End lodash.

(** ** src/apiGenerator.ts *)

Definition QUERY_OPTS : list string := ["skip"; "limit"; "sort"; "page"].

Module ApiGenerator.

(** Modelled from the spec: the classes [ApiSyntaxError] and
    [ApiResponseError] of [./errors] are not among the sources.  An
    [ApiSyntaxError] keeps the message and the error it wraps, and
    [ApiResponseError.MalformedQuery] wraps that in turn. *)
Inductive ApiSyntaxError (Cause : Type) : Type :=
  | mkApiSyntaxError (message : string) (cause : Cause).
Arguments mkApiSyntaxError {Cause} message cause.

Inductive ApiResponseError (Cause : Type) : Type :=
  | MalformedQuery (error : ApiSyntaxError Cause).
Arguments MalformedQuery {Cause} error.

Record ParsedQuery : Type := {
  raw : gmap string json;
  options : gmap string json;
  where_ : json;
}.

(** [ApiGenerator.parseQuery] *)
Definition parseQuery `{JsonEngine} (queryObj : gmap string string)
    : completion (ApiResponseError SyntaxError) ParsedQuery :=
  match
    lodash.mapValues queryObj (λ val key,
      match JSON_parse val with
      | Returns v => Returns v
      | Throws error =>
          Throws (MalformedQuery (mkApiSyntaxError "Invalid syntax parsing query" error))
      end)
  with
  | Throws e => Throws e
  | Returns raw =>
      Returns {|
        raw := raw;
        options := lodash.pick raw QUERY_OPTS;
        where_ := lodash.get raw "where" (JObject (lodash.omit raw QUERY_OPTS));
      |}
  end.

(** The query string that JSON-encodes again, value by value, the entries
    of a search clause and of the options. *)
Definition reencode `{JsonEngine} (predicate options : gmap string json)
    : gmap string string :=
  (JSON_stringify <$> predicate) ∪ (JSON_stringify <$> options).

(** *** The constructor *)

(** Modelled from the spec: the declarations [IConfigurationRaw] and
    [IModelConfiguration] of [./index] are not among the sources.  The
    configuration says of a model either [true] or an object whose fields
    [singular], [plural] and [middlewares] are optional; a configured model
    has the three of them and its [model]. *)
Inductive IModelConfigurationRaw (Middleware : Type) : Type :=
  | Exposed
  | Described (singular plural : option string)
      (middlewares : option (gmap string Middleware)).
Arguments Exposed {Middleware}.
Arguments Described {Middleware} singular plural middlewares.

Record IModelConfiguration (Model Middleware : Type) : Type := {
  singular : string;
  plural : string;
  middlewares : gmap string Middleware;
  model : option Model;
}.
Arguments singular {Model Middleware} i.
Arguments plural {Model Middleware} i.
Arguments middlewares {Model Middleware} i.
Arguments model {Model Middleware} i.

(** What [configureList] can throw: a [ReferenceError] with its message,
    or anything else. *)
Inductive Exception (Other : Type) : Type :=
  | ReferenceError (message : string)
  | Otherwise (error : Other).
Arguments ReferenceError {Other} message.
Arguments Otherwise {Other} error.

(** The fields the constructor sets, together with the lines it hands to
    [Diaspora.logger.verbose], oldest first. *)
Record Generator (Model Middleware T : Type) : Type := {
  _modelsConfiguration : list (string * IModelConfiguration Model Middleware);
  _middleware : T;
  logged : list string;
}.
Arguments _modelsConfiguration {Model Middleware T} g.
Arguments _middleware {Model Middleware T} g.
Arguments logged {Model Middleware T} g.

Definition dquote : string := String "034"%char EmptyString.

Definition newline : string := String "010"%char EmptyString.

Section constructor.
Context {Model Middleware Models Other T : Type}.

(** [String.prototype.toLowerCase] *)
Variable toLowerCase : string → string.

(** Modelled from the spec: [configureList] of [./utils] is not among the
    sources; it is taken as a parameter.  It is given the [models] of the
    configuration and the names of the registered models, and returns the
    description of each model to expose, in the order of enumeration, or a
    falsy value, or throws. *)
Variable configureList : Models → list string →
  completion (Exception Other) (option (list (string * IModelConfigurationRaw Middleware))).

(** [Diaspora.models] *)
Variable Diaspora_models : gmap string Model.

(** The iteratee that configures one model: the description defaulted,
    the model assigned, and the line logged. *)
Definition configureModel (apiDesc : IModelConfigurationRaw Middleware)
    (modelName : string) : IModelConfiguration Model Middleware * string :=
  let '(given_singular, given_plural, given_middlewares) :=
    match apiDesc with
    | Exposed => (None, None, None)
    | Described s p m => (s, p, m)
    end in
  let defaulted_singular := default (toLowerCase modelName) given_singular in
  let defaulted_plural := default (toLowerCase modelName ++ "s") given_plural in
  let defaulted_middlewares := default ∅ given_middlewares in
  ({| singular := defaulted_singular;
      plural := defaulted_plural;
      middlewares := defaulted_middlewares;
      model := Diaspora_models !! modelName |},
   "Exposing " ++ modelName ++ " (endpoints " ++ dquote ++ "/" ++ defaulted_singular
     ++ dquote ++ " & " ++ dquote ++ "/" ++ defaulted_plural ++ dquote ++ ")").

(** [new ApiGenerator(configHash, middleware)], given [configHash.models] *)
Definition constructor (configHash_models : Models) (middleware : T)
    : completion (Exception Other) (Generator Model Middleware T) :=
  let allModels := (map_to_list Diaspora_models).*1 in
  match configureList configHash_models allModels with
  | Throws (ReferenceError message) =>
      Throws (ReferenceError
        ("Tried to configure Diaspora Server with unknown model. Original message: "
         ++ message ++ "."
         ++ (if bool_decide (length allModels = 0)
             then newline ++ "See https://goo.gl/Auj3DB for more infos."
             else EmptyString)))
  | Throws error => Throws error
  | Returns configured =>
      let configuredModels := default [] configured in
      let configurations :=
        (λ entry, (entry.1, configureModel entry.2 entry.1)) <$> configuredModels in
      Returns {|
        _modelsConfiguration := (λ entry, (entry.1, entry.2.1)) <$> configurations;
        _middleware := middleware;
        logged := (λ entry, entry.2.2) <$> configurations;
      |}
  end.

End constructor.

(** [ApiGenerator.setIdFromIdHash]; [getProperties entity] stands for
    [entity.getProperties( entity.model.getDataSource())], which gives an
    object or nothing. *)
Definition setIdFromIdHash {Entity} (getProperties : Entity → option (gmap string json))
    (entity : Entity) : option (gmap string json) :=
  match getProperties entity with
  | Some retVal => Some (delete "idHash" retVal)
  | None => None
  end.

End ApiGenerator.

(** ** The Express router: responses, model layer, handlers *)

Module Express.

(** *** What Express provides *)

(** The request: [req.query] as decoded from the query string,
    [req.params[1]] (the segment after the singular path, [undefined] when
    the route has none) and the decoded [req.body]. *)
Record Request : Type := {
  req_query : gmap string string;
  req_params_1 : option string;
  req_body : json;
}.

(** The response object before it is sent; Express starts it at 200. *)
Record ServerResponse : Type := { statusCode : Z }.

Definition res : ServerResponse := {| statusCode := 200 |}.

Inductive Body : Type :=
  | NoBody
  | Text (chunk : string)
  | Json (obj : json).

Record Sent : Type := { code : Z; content : Body }.

(** [res.status(code)] *)
Definition res_status (code : Z) (res : ServerResponse) : ServerResponse :=
  {| statusCode := code |}.

(** [res.send(chunk)]; [res.send()] sends no body. *)
Definition res_send (chunk : option string) (res : ServerResponse) : Sent :=
  {| code := statusCode res;
     content := match chunk with Some s => Text s | None => NoBody end |}.

(** [res.json(obj)]; [res.json()] has nothing to serialize and sends no
    body. *)
Definition res_json (obj : option json) (res : ServerResponse) : Sent :=
  {| code := statusCode res;
     content := match obj with Some j => Json j | None => NoBody end |}.

(** *** The model layer (Diaspora) *)

(** A model with its entities and sets.  A set is the list of its
    entities.  Operations that reach the data source take its state and
    return the new one along with how their promise settles.

    Two assumptions on Diaspora, whose code is not among the sources, are
    built in.  [model_spawn] and [model_spawnMany] return: the handlers
    call them before any promise exists, so an exception of theirs would
    escape the handler, and no statement below covers a body they refuse.
    [entity_replaceAttributes] gives each entity attributes of its own:
    the handlers hand the one object [req.body] to every entity of a set,
    and what Diaspora then does to that shared object, once two entities
    hold it, is not followed. *)
Class ModelLayer := {
  Entity : Type;
  DataSource : Type;
  ModelError : Type;
  model_find : json → gmap string json → DataSource →
    completion ModelError (option Entity) * DataSource;
  model_findMany : json → gmap string json → DataSource →
    completion ModelError (list Entity) * DataSource;
  model_update : json → json → gmap string json → DataSource →
    completion ModelError (option Entity) * DataSource;
  model_updateMany : json → json → gmap string json → DataSource →
    completion ModelError (list Entity) * DataSource;
  model_delete : json → gmap string json → DataSource →
    completion ModelError unit * DataSource;
  model_deleteMany : json → gmap string json → DataSource →
    completion ModelError unit * DataSource;
  model_spawn : json → Entity;
  model_spawnMany : json → list Entity;
  entity_attributes : Entity → json;
  entity_replaceAttributes : json → Entity → Entity;
  entity_persist : Entity → DataSource →
    completion ModelError Entity * DataSource;
  entity_toObject : Entity → json;
  set_persist : list Entity → DataSource →
    completion ModelError (list Entity) * DataSource;
  set_toObject : list Entity → json;
}.

(** Modelled from the spec: [respondError] of [../utils] is not among the
    sources; it is the generic responder that turns a failure of the model
    layer into a response, taken here as a parameter. *)
Class Utils `{ModelLayer} := {
  respondError : ServerResponse → ModelError → Sent;
}.

(** The calls of a handler that are recorded: those that reach the data
    source, and [spawn] and [spawnMany], which start a creation.
    [replaceAttributes] and [toObject], which work on an entity in memory,
    are applied but not recorded. *)
Inductive Call (Entity : Type) : Type :=
  | call_find (query : json) (options : gmap string json)
  | call_findMany (query : json) (options : gmap string json)
  | call_update (query update : json) (options : gmap string json)
  | call_updateMany (query update : json) (options : gmap string json)
  | call_delete (query : json) (options : gmap string json)
  | call_deleteMany (query : json) (options : gmap string json)
  | call_spawn (source : json)
  | call_spawnMany (sources : json)
  | call_persist (entity : Entity)
  | call_set_persist (set : list Entity).
Arguments call_find {Entity} query options.
Arguments call_findMany {Entity} query options.
Arguments call_update {Entity} query update options.
Arguments call_updateMany {Entity} query update options.
Arguments call_delete {Entity} query options.
Arguments call_deleteMany {Entity} query options.
Arguments call_spawn {Entity} source.
Arguments call_spawnMany {Entity} sources.
Arguments call_persist {Entity} entity.
Arguments call_set_persist {Entity} set.

(** The state a request runs in: the data source, and the calls made to
    the model layer so far, oldest first. *)
Record World (DataSource Entity : Type) : Type := {
  store : DataSource;
  calls : list (Call Entity);
}.
Arguments Build_World {DataSource Entity} store calls.
Arguments store {DataSource Entity} w.
Arguments calls {DataSource Entity} w.

(** *** Promises *)

Definition Promise `{ModelLayer} (A : Type) : Type :=
  World DataSource Entity → completion ModelError A * World DataSource Entity.

Definition resolve `{ModelLayer} {A} (a : A) : Promise A :=
  λ w, (Returns a, w).

(** An asynchronous operation of the model layer, recorded as it is made. *)
Definition invoke `{ModelLayer} {A} (c : Call Entity)
    (operation : DataSource → completion ModelError A * DataSource) : Promise A :=
  λ w, let '(r, s) := operation (store w) in
       (r, {| store := s; calls := calls w ++ [c] |}).

(** A synchronous call ([spawn], [spawnMany]), recorded as it is made. *)
Definition construct `{ModelLayer} {A} (c : Call Entity) (a : A) : Promise A :=
  invoke c (λ s, (Returns a, s)).

(** [p.then(onFulfilled)] *)
Definition then_ `{ModelLayer} {A B} (p : Promise A) (onFulfilled : A → Promise B)
    : Promise B :=
  λ w, match p w with
       | (Returns a, w') => onFulfilled a w'
       | (Throws e, w') => (Throws e, w')
       end.

(** [p.catch(onRejected)], at the end of a chain that sends the response. *)
Definition catch_ `{ModelLayer} {A} (p : Promise A) (onRejected : ModelError → A)
    : World DataSource Entity → A * World DataSource Entity :=
  λ w, match p w with
       | (Returns a, w') => (a, w')
       | (Throws e, w') => (onRejected e, w')
       end.

(** *** The router's own helpers *)

Record ParsedQuery : Type := {
  query : json;
  options : gmap string json;
}.

(** What the router's [parseQuery] throws: the [TypeError] of the call
    [queryObj.hasOwnProperty( 'query' )] when the query string has a key
    [hasOwnProperty], whose value is then called, or the [SyntaxError] of
    [JSON.parse]. *)
Inductive ParseError (Cause : Type) : Type :=
  | NotAFunction
  | Undecodable (e : Cause).
Arguments NotAFunction {Cause}.
Arguments Undecodable {Cause} e.

(** [parseQuery] of the router: the option keys are picked as they are,
    the other keys make the query, and a key [query], when present, is
    decoded as JSON and replaces it.  Whether the key is present is asked
    of the query string itself, by its method [hasOwnProperty]: a key of
    that name, which Express lets through, shadows the method. *)
Definition parseQuery `{JsonEngine} (queryObj : gmap string string)
    : completion (ParseError SyntaxError) ParsedQuery :=
  let options := JString <$> lodash.pick queryObj QUERY_OPTS in
  let query := JObject (JString <$> lodash.omit queryObj QUERY_OPTS) in
  match queryObj !! "hasOwnProperty" with
  | Some _ => Throws NotAFunction
  | None =>
      match queryObj !! "query" with
      | Some text =>
          match JSON_parse text with
          | Returns query => Returns {| query := query; options := options |}
          | Throws e => Throws (Undecodable e)
          end
      | None => Returns {| query := query; options := options |}
      end
  end.

(** The [TypeError] of an assignment to a property of a value that is not
    an object (the file is in strict mode). *)
Inductive TypeError : Type :=
  | CannotCreateProperty (key : string) (target : json).

(** [target[key] = value].  On an array the assignment adds a named
    property, which is no part of its JSON content: elements and length
    stay as they are. *)
Definition set_property (target : json) (key : string) (value : json)
    : completion TypeError json :=
  match target with
  | JObject o => Returns (JObject (<[key := value]> o))
  | JArray l => Returns (JArray l)
  | JNull | JBool _ | JNumber _ | JString _ => Throws (CannotCreateProperty key target)
  end.

(** [if ( req.params[1]) { query.id = req.params[1]; }]: the empty string
    is falsy, as [undefined] is. *)
Definition fold_id (req : Request) (query : json) : completion TypeError json :=
  match req_params_1 req with
  | Some id =>
      if bool_decide (String.length id = 0) then Returns query
      else set_property query "id" (JString id)
  | None => Returns query
  end.

Definition quote : string := String "034"%char EmptyString.

(** [`${ e }`] for what [parseQuery] threw *)
Definition thrown_toString `{JsonEngine} (e : ParseError SyntaxError) : string :=
  match e with
  | NotAFunction => not_a_function
  | Undecodable e => error_toString e
  end.

(** The text sent when [parseQuery] throws. *)
Definition malformed `{JsonEngine} (e : ParseError SyntaxError) : string :=
  "Query property " ++ quote ++ "query" ++ quote
    ++ " expected to be a valid JSON object:" ++ thrown_toString e.

(** What a handler leaves behind: the response it sent, or a [TypeError]
    that escaped it. *)
Definition Handler `{ModelLayer} : Type :=
  World DataSource Entity → completion TypeError Sent * World DataSource Entity.

(** The [try]/[catch] around [parseQuery] and the folding of the path
    identifier, with which every singular handler starts. *)
Definition singular `{JsonEngine} `{ModelLayer} (req : Request)
    (continue : json → gmap string json →
       World DataSource Entity → Sent * World DataSource Entity) : Handler :=
  λ w,
  match parseQuery (req_query req) with
  | Throws e => (Returns (res_send (Some (malformed e)) (res_status 400 res)), w)
  | Returns parsed =>
      match fold_id req (query parsed) with
      | Throws e => (Throws e, w)
      | Returns query =>
          let '(sent, w') := continue query (options parsed) w in
          (Returns sent, w')
      end
  end.

(** The same for the plural handlers, which fold no identifier. *)
Definition plural `{JsonEngine} `{ModelLayer} (req : Request)
    (continue : json → gmap string json →
       World DataSource Entity → Sent * World DataSource Entity) : Handler :=
  λ w,
  match parseQuery (req_query req) with
  | Throws e => (Returns (res_send (Some (malformed e)) (res_status 400 res)), w)
  | Returns parsed =>
      let '(sent, w') := continue (query parsed) (options parsed) w in
      (Returns sent, w')
  end.

(** *** handlers *)

Section handlers.
Context `{JsonEngine} `{ModelLayer} `{!Utils}.

Definition _get (req : Request) : Handler :=
  singular req (λ query options,
    catch_
      (then_ (invoke (call_find query options) (model_find query options))
        (λ entity,
          match entity with
          | None => resolve (res_send None (res_status 404 res))
          | Some entity => resolve (res_json (Some (entity_toObject entity)) res)
          end))
      (respondError res)).

Definition _post (req : Request) : Handler :=
  singular req (λ query options,
    let update := req_body req in
    if lodash.isEmpty query then
      catch_
        (then_
          (then_ (construct (call_spawn update) (model_spawn update))
            (λ entity, invoke (call_persist entity) (entity_persist entity)))
          (λ entity,
            resolve (res_json (Some (entity_toObject entity)) (res_status 201 res))))
        (respondError res)
    else
      catch_
        (then_
          (invoke (call_update query update options)
            (model_update query update options))
          (λ entity,
            match entity with
            | None => resolve (res_send None (res_status 404 res))
            | Some entity => resolve (res_json (Some (entity_toObject entity)) res)
            end))
        (respondError res)).

Definition _put (req : Request) : Handler :=
  singular req (λ query options,
    let update := req_body req in
    if lodash.isEmpty query then
      catch_
        (then_
          (then_ (construct (call_spawn update) (model_spawn update))
            (λ entity, invoke (call_persist entity) (entity_persist entity)))
          (λ entity,
            resolve (res_json (Some (entity_toObject entity)) (res_status 201 res))))
        (respondError res)
    else
      catch_
        (then_ (invoke (call_find query options) (model_find query options))
          (λ entity,
            match entity with
            | None => resolve (res_send None (res_status 404 res))
            | Some entity =>
                let entity := entity_replaceAttributes update entity in
                then_ (invoke (call_persist entity) (entity_persist entity))
                  (λ entity, resolve (res_json (Some (entity_toObject entity)) res))
            end))
        (respondError res)).

Definition _delete (req : Request) : Handler :=
  singular req (λ query options,
    catch_
      (then_ (invoke (call_delete query options) (model_delete query options))
        (λ entity, resolve (res_json None res)))
      (respondError res)).

Definition get (req : Request) : Handler :=
  plural req (λ query options,
    catch_
      (then_ (invoke (call_findMany query options) (model_findMany query options))
        (λ set,
          let res := if bool_decide (length set = 0) then res_status 404 res else res in
          resolve (res_json (Some (set_toObject set)) res)))
      (respondError res)).

Definition post (req : Request) : Handler :=
  plural req (λ query options,
    let update := req_body req in
    if lodash.isEmpty query then
      catch_
        (then_
          (then_ (construct (call_spawnMany update) (model_spawnMany update))
            (λ set, invoke (call_set_persist set) (set_persist set)))
          (λ set, resolve (res_json (Some (set_toObject set)) (res_status 201 res))))
        (respondError res)
    else
      catch_
        (then_
          (invoke (call_updateMany query update options)
            (model_updateMany query update options))
          (λ set,
            let res := if bool_decide (length set = 0) then res_status 404 res else res in
            resolve (res_json (Some (set_toObject set)) res)))
        (respondError res)).

(** The plural PUT.  Each entity found has its attributes replaced by
    the body; that the entities are handed the same object is not
    followed (see [ModelLayer]). *)
Definition put (req : Request) : Handler :=
  plural req (λ query options,
    let update := req_body req in
    if lodash.isEmpty query then
      catch_
        (then_
          (then_ (construct (call_spawnMany update) (model_spawnMany update))
            (λ set, invoke (call_set_persist set) (set_persist set)))
          (λ set, resolve (res_json (Some (set_toObject set)) (res_status 201 res))))
        (respondError res)
    else
      catch_
        (then_
          (then_ (invoke (call_findMany query options) (model_findMany query options))
            (λ set,
              let set := entity_replaceAttributes update <$> set in
              invoke (call_set_persist set) (set_persist set)))
          (λ set,
            let res := if bool_decide (length set = 0) then res_status 404 res else res in
            resolve (res_json (Some (set_toObject set)) res)))
        (respondError res)).

Definition delete (req : Request) : Handler :=
  plural req (λ query options,
    catch_
      (then_
        (invoke (call_deleteMany query options) (model_deleteMany query options))
        (λ set, resolve (res_json None res)))
      (respondError res)).

(** The handlers the router binds to the singular and to the plural
    route of a model, in the order GET, POST, PUT, DELETE. *)
Definition singular_route : list (Request → Handler) :=
  [_get; _post; _put; _delete].

Definition plural_route : list (Request → Handler) :=
  [get; post; put; delete].

End handlers.

(** *** module.exports: the discovery document *)

(** What the configuration holds for a model: the names of its two
    routes, each of which may be missing. *)
Record ApiDesc : Type := {
  desc_singular : option string;
  desc_plural : option string;
}.

(** [`${ value }`] for a value that is a string or [undefined] *)
Definition interpolate (value : option string) : string :=
  default "undefined" value.

Definition singular_routeName (apiDesc : ApiDesc) : string :=
  "/" ++ interpolate (desc_singular apiDesc) ++ "/$ID".

Definition plural_routeName (apiDesc : ApiDesc) : string :=
  "/" ++ interpolate (desc_plural apiDesc).

Definition singular_entry (modelName baseUrl routeName : string) : json :=
  JObject {[
    "description" := JString ("Base API to query on a SINGLE item of " ++ modelName);
    "parameters" := JObject {[
      "$ID" := JObject {[
        "optional" := JBool true;
        "description" := JString "Id of the item to match" ]} ]};
    "canonicalUrl" := JString (baseUrl ++ routeName) ]}.

Definition plural_entry (modelName baseUrl routeName : string) : json :=
  JObject {[
    "description" := JString ("Base API to query on SEVERAL items of " ++ modelName);
    "canonicalUrl" := JString (baseUrl ++ routeName) ]}.

(** The [response] object that the handler of the root route fills, one
    model after the other in the order of enumeration: a later assignment
    to a route name replaces an earlier one. *)
Definition describe (baseUrl : string) (response : gmap string json)
    (entry : string * ApiDesc) : gmap string json :=
  let '(modelName, apiDesc) := entry in
  let response :=
    <[singular_routeName apiDesc :=
        singular_entry modelName baseUrl (singular_routeName apiDesc)]> response in
  <[plural_routeName apiDesc :=
      plural_entry modelName baseUrl (plural_routeName apiDesc)]> response.

Definition discovery_response (configuredModels : list (string * ApiDesc))
    (baseUrl : string) : gmap string json :=
  foldl (describe baseUrl) ∅ configuredModels.

(** The handler of [newRouter.get( '', ...)], given [req.baseUrl] *)
Definition discovery (configuredModels : list (string * ApiDesc)) (baseUrl : string)
    : Sent :=
  res_json (Some (JObject (discovery_response configuredModels baseUrl))) res.

End Express.

(** ** Reference instances *)

(** A JSON codec and an in-memory model, on which the handlers can be run.
    The decoder covers JSON with integer numbers and the two-character
    escapes.  The texts of its errors are those of one version of V8;
    other engines word them differently, and no statement depends on the
    wording. *)
Module Reference.

Inductive syntax_error : Type :=
  | UnexpectedToken (token : ascii) (position : nat)
  | UnexpectedEnd.

Definition describe (e : syntax_error) : string :=
  match e with
  | UnexpectedToken c n =>
      "SyntaxError: Unexpected token " ++ String c EmptyString
        ++ " in JSON at position " ++ pretty n
  | UnexpectedEnd => "SyntaxError: Unexpected end of JSON input"
  end.

Definition dquote : ascii := "034"%char.
Definition backslash : ascii := "092"%char.

Definition is_space (c : ascii) : bool :=
  bool_decide (nat_of_ascii c ∈ [32; 9; 10; 13]%nat).

Definition digit (c : ascii) : option Z :=
  let n := nat_of_ascii c in
  if bool_decide (48 ≤ n ≤ 57)%nat then Some (Z.of_nat (n - 48)) else None.

Definition unescape (c : ascii) : option ascii :=
  if Ascii.eqb c dquote then Some dquote
  else if Ascii.eqb c backslash then Some backslash
  else if Ascii.eqb c "/" then Some "/"%char
  else if Ascii.eqb c "b" then Some "008"%char
  else if Ascii.eqb c "f" then Some "012"%char
  else if Ascii.eqb c "n" then Some "010"%char
  else if Ascii.eqb c "r" then Some "013"%char
  else if Ascii.eqb c "t" then Some "009"%char
  else None.

(** The rest of the input goes along with the position reached in it. *)
Definition cursor : Type := (string * nat)%type.

Definition parser (A : Type) : Type := completion syntax_error (A * cursor).

Definition and_then {A B} (p : parser A) (k : A → cursor → parser B) : parser B :=
  match p with
  | Returns (a, at_) => k a at_
  | Throws e => Throws e
  end.

Fixpoint skip (s : string) (pos : nat) : cursor :=
  match s with
  | String c rest => if is_space c then skip rest (S pos) else (s, pos)
  | EmptyString => (s, pos)
  end.

(** The characters of a string literal, after its opening quote. *)
Fixpoint chars (s : string) (pos : nat) : parser string :=
  match s with
  | EmptyString => Throws UnexpectedEnd
  | String c rest =>
      if Ascii.eqb c dquote then Returns (EmptyString, (rest, S pos))
      else if Ascii.eqb c backslash then
        match rest with
        | EmptyString => Throws UnexpectedEnd
        | String e rest' =>
            match unescape e with
            | Some c' =>
                and_then (chars rest' (S (S pos)))
                  (λ tail at_, Returns (String c' tail, at_))
            | None => Throws (UnexpectedToken e (S pos))
            end
        end
      else if bool_decide (nat_of_ascii c < 32)%nat then Throws (UnexpectedToken c pos)
      else and_then (chars rest (S pos)) (λ tail at_, Returns (String c tail, at_))
  end.

Fixpoint digits (s : string) (pos : nat) (acc : Z) : Z * cursor :=
  match s with
  | String c rest =>
      match digit c with
      | Some d => digits rest (S pos) (10 * acc + d)
      | None => (acc, (s, pos))
      end
  | EmptyString => (acc, (s, pos))
  end.

Definition natural (s : string) (pos : nat) : parser Z :=
  match s with
  | EmptyString => Throws UnexpectedEnd
  | String c rest =>
      match digit c with
      | Some 0%Z => Returns (0%Z, (rest, S pos))
      | Some d => Returns (digits rest (S pos) d)
      | None => Throws (UnexpectedToken c pos)
      end
  end.

Fixpoint keyword (word : string) (v : json) (s : string) (pos : nat) : parser json :=
  match word with
  | EmptyString => Returns (v, (s, pos))
  | String w word' =>
      match s with
      | EmptyString => Throws UnexpectedEnd
      | String c rest =>
          if Ascii.eqb c w then keyword word' v rest (S pos)
          else Throws (UnexpectedToken c pos)
      end
  end.

Definition expect (token : ascii) (at_ : cursor) : parser unit :=
  match skip at_.1 at_.2 with
  | (EmptyString, _) => Throws UnexpectedEnd
  | (String c rest, pos) =>
      if Ascii.eqb c token then Returns (tt, (rest, S pos))
      else Throws (UnexpectedToken c pos)
  end.

Fixpoint value (fuel : nat) (s : string) (pos : nat) {struct fuel} : parser json :=
  match fuel with
  | O => Throws UnexpectedEnd
  | S fuel =>
      match skip s pos with
      | (EmptyString, _) => Throws UnexpectedEnd
      | (String c rest as s, pos) =>
          if Ascii.eqb c "[" then
            match skip rest (S pos) with
            | (String c' rest', pos') =>
                if Ascii.eqb c' "]" then Returns (JArray [], (rest', S pos'))
                else elements fuel rest (S pos) []
            | _ => Throws UnexpectedEnd
            end
          else if Ascii.eqb c "{" then
            match skip rest (S pos) with
            | (String c' rest', pos') =>
                if Ascii.eqb c' "}" then Returns (JObject ∅, (rest', S pos'))
                else members fuel rest (S pos) ∅
            | _ => Throws UnexpectedEnd
            end
          else if Ascii.eqb c dquote then
            and_then (chars rest (S pos)) (λ text at_, Returns (JString text, at_))
          else if Ascii.eqb c "-" then
            and_then (natural rest (S pos)) (λ n at_, Returns (JNumber (- n), at_))
          else if bool_decide (is_Some (digit c)) then
            and_then (natural s pos) (λ n at_, Returns (JNumber n, at_))
          else if Ascii.eqb c "n" then keyword "null" JNull s pos
          else if Ascii.eqb c "t" then keyword "true" (JBool true) s pos
          else if Ascii.eqb c "f" then keyword "false" (JBool false) s pos
          else Throws (UnexpectedToken c pos)
      end
  end
with elements (fuel : nat) (s : string) (pos : nat) (acc : list json) {struct fuel}
    : parser json :=
  match fuel with
  | O => Throws UnexpectedEnd
  | S fuel =>
      and_then (value fuel s pos) (λ v at_,
        match skip at_.1 at_.2 with
        | (EmptyString, _) => Throws UnexpectedEnd
        | (String c rest, pos) =>
            if Ascii.eqb c "," then elements fuel rest (S pos) (acc ++ [v])
            else if Ascii.eqb c "]" then Returns (JArray (acc ++ [v]), (rest, S pos))
            else Throws (UnexpectedToken c pos)
        end)
  end
with members (fuel : nat) (s : string) (pos : nat) (acc : gmap string json) {struct fuel}
    : parser json :=
  match fuel with
  | O => Throws UnexpectedEnd
  | S fuel =>
      and_then (expect dquote (s, pos)) (λ _ at_,
      and_then (chars at_.1 at_.2) (λ key at_,
      and_then (expect ":" at_) (λ _ at_,
      and_then (value fuel at_.1 at_.2) (λ v at_,
        match skip at_.1 at_.2 with
        | (EmptyString, _) => Throws UnexpectedEnd
        | (String c rest, pos) =>
            if Ascii.eqb c "," then members fuel rest (S pos) (<[key := v]> acc)
            else if Ascii.eqb c "}" then Returns (JObject (<[key := v]> acc), (rest, S pos))
            else Throws (UnexpectedToken c pos)
        end))))
  end.

Definition parse (text : string) : completion syntax_error json :=
  match value (2 * String.length text + 2) text 0 with
  | Throws e => Throws e
  | Returns (v, (rest, pos)) =>
      match skip rest pos with
      | (EmptyString, _) => Returns v
      | (String c _, pos) => Throws (UnexpectedToken c pos)
      end
  end.

Fixpoint escape (s : string) : string :=
  match s with
  | EmptyString => EmptyString
  | String c rest =>
      let two (e : ascii) := String backslash (String e (escape rest)) in
      if Ascii.eqb c dquote then two dquote
      else if Ascii.eqb c backslash then two backslash
      else if Ascii.eqb c "008" then two "b"%char
      else if Ascii.eqb c "012" then two "f"%char
      else if Ascii.eqb c "010" then two "n"%char
      else if Ascii.eqb c "013" then two "r"%char
      else if Ascii.eqb c "009" then two "t"%char
      else String c (escape rest)
  end.

Definition quoted (s : string) : string :=
  String dquote (escape s) ++ String dquote EmptyString.

Fixpoint join (items : list string) : string :=
  match items with
  | [] => EmptyString
  | [item] => item
  | item :: rest => item ++ "," ++ join rest
  end.

Fixpoint stringify (v : json) : string :=
  match v with
  | JNull => "null"
  | JBool true => "true"
  | JBool false => "false"
  | JNumber n => pretty n
  | JString s => quoted s
  | JArray l => "[" ++ join (map stringify l) ++ "]"
  | JObject o =>
      "{" ++ join (map_fold (λ key v acc, (quoted key ++ ":" ++ stringify v) :: acc) [] o)
        ++ "}"
  end.

Definition engine : JsonEngine := {|
  SyntaxError := syntax_error;
  JSON_parse := parse;
  JSON_stringify := stringify;
  error_toString := describe;
  not_a_function := "TypeError: queryObj.hasOwnProperty is not a function";
|}.

End Reference.


(** An in-memory data source: rows of an identifier and attributes, in the
    order they were inserted.  A query is an object, and selects the rows
    that have each of its entries ([id] being the identifier); the paging
    options are not interpreted.  Only objects can be persisted. *)
Module Memory.

Record entity : Type := { ident : option string; attrs : json }.

Record source : Type := { rows : list (string * json); next : nat }.

Definition fields (v : json) : gmap string json :=
  match v with JObject o => o | _ => ∅ end.

Definition record (row : string * json) : gmap string json :=
  <["id" := JString row.1]> (fields row.2).

Definition matches (query : json) (row : string * json) : bool :=
  match query with
  | JObject q => bool_decide (map_Forall (λ k v, record row !! k = Some v) q)
  | _ => false
  end.

Definition load (row : string * json) : entity :=
  {| ident := Some row.1; attrs := row.2 |}.

Definition patch (update : json) (row : string * json) : string * json :=
  (row.1, JObject (fields update ∪ fields row.2)).

Definition find (query : json) (options : gmap string json) (s : source)
    : completion string (option entity) * source :=
  (Returns (load <$> head (List.filter (matches query) (rows s))), s).

Definition findMany (query : json) (options : gmap string json) (s : source)
    : completion string (list entity) * source :=
  (Returns (load <$> List.filter (matches query) (rows s)), s).

Fixpoint update_first (query update : json) (l : list (string * json))
    : option entity * list (string * json) :=
  match l with
  | [] => (None, [])
  | row :: rest =>
      if matches query row then (Some (load (patch update row)), patch update row :: rest)
      else let '(found, rest') := update_first query update rest in (found, row :: rest')
  end.

Definition update (query update : json) (options : gmap string json) (s : source)
    : completion string (option entity) * source :=
  let '(found, l) := update_first query update (rows s) in
  (Returns found, {| rows := l; next := next s |}).

Definition updateMany (query update : json) (options : gmap string json) (s : source)
    : completion string (list entity) * source :=
  (Returns (load ∘ patch update <$> List.filter (matches query) (rows s)),
   {| rows := (λ row, if matches query row then patch update row else row) <$> rows s;
      next := next s |}).

Fixpoint delete_first (query : json) (l : list (string * json)) : list (string * json) :=
  match l with
  | [] => []
  | row :: rest => if matches query row then rest else row :: delete_first query rest
  end.

Definition delete (query : json) (options : gmap string json) (s : source)
    : completion string unit * source :=
  (Returns tt, {| rows := delete_first query (rows s); next := next s |}).

Definition deleteMany (query : json) (options : gmap string json) (s : source)
    : completion string unit * source :=
  (Returns tt,
   {| rows := List.filter (λ row, negb (matches query row)) (rows s); next := next s |}).

Definition spawn (source : json) : entity := {| ident := None; attrs := source |}.

Definition spawnMany (sources : json) : list entity :=
  match sources with JArray l => spawn <$> l | _ => [] end.

Definition replaceAttributes (newContent : json) (e : entity) : entity :=
  {| ident := ident e; attrs := newContent |}.

Definition store_row (i : string) (content : json) (l : list (string * json))
    : list (string * json) :=
  if bool_decide (i ∈ l.*1)
  then (λ row, if bool_decide (row.1 = i) then (i, content) else row) <$> l
  else l ++ [(i, content)].

Definition persist (e : entity) (s : source) : completion string entity * source :=
  match attrs e with
  | JObject _ =>
      match ident e with
      | Some i => (Returns e, {| rows := store_row i (attrs e) (rows s); next := next s |})
      | None =>
          let i := pretty (next s) in
          (Returns {| ident := Some i; attrs := attrs e |},
           {| rows := rows s ++ [(i, attrs e)]; next := S (next s) |})
      end
  | _ => (Throws "ValidationError", s)
  end.

Fixpoint persist_all (set : list entity) (s : source)
    : completion string (list entity) * source :=
  match set with
  | [] => (Returns [], s)
  | e :: rest =>
      match persist e s with
      | (Returns e', s') =>
          match persist_all rest s' with
          | (Returns rest', s'') => (Returns (e' :: rest'), s'')
          | (Throws err, s'') => (Throws err, s'')
          end
      | (Throws err, s') => (Throws err, s')
      end
  end.

Definition toObject (e : entity) : json :=
  match attrs e, ident e with
  | JObject o, Some i => JObject (<["id" := JString i]> o)
  | v, _ => v
  end.

Definition model : Express.ModelLayer := {|
  Express.Entity := entity;
  Express.DataSource := source;
  Express.ModelError := string;
  Express.model_find := find;
  Express.model_findMany := findMany;
  Express.model_update := update;
  Express.model_updateMany := updateMany;
  Express.model_delete := delete;
  Express.model_deleteMany := deleteMany;
  Express.model_spawn := spawn;
  Express.model_spawnMany := spawnMany;
  Express.entity_attributes := attrs;
  Express.entity_replaceAttributes := replaceAttributes;
  Express.entity_persist := persist;
  Express.entity_toObject := toObject;
  Express.set_persist := persist_all;
  Express.set_toObject := λ set, JArray (toObject <$> set);
|}.

(** A failed validation is a bad request; anything else is an internal
    error. *)
Definition utils : @Express.Utils model := {|
  Express.respondError := λ res (err : @Express.ModelError model),
    Express.res_send (Some err)
      (Express.res_status (if bool_decide (err = "ValidationError") then 400 else 500) res);
|}.

(** A request starts in a world where no call has been made yet. *)
Definition world (l : list (string * json)) (n : nat) : Express.World source entity :=
  {| Express.store := {| rows := l; next := n |}; Express.calls := [] |}.

End Memory.

(** Requests and data sources on which the statements below are run. *)
Module Sample.

Definition request (q : gmap string string) (id : option string) (body : json)
    : Express.Request :=
  {| Express.req_query := q; Express.req_params_1 := id; Express.req_body := body |}.

(** [{"name":"a"}], [{"name":"b"}] and [{"name":"a","age":5}] *)
Definition named (name : string) : json := JObject {[ "name" := JString name ]}.

Definition aged : json := JObject {[ "name" := JString "a"; "age" := JNumber 5 ]}.

(** A data source with no row, and one with the single row [aged] under
    the identifier 1. *)
Definition nobody : Express.World Memory.source Memory.entity := Memory.world [] 1.

Definition somebody : Express.World Memory.source Memory.entity :=
  Memory.world [("1", aged)] 2.

(** The text [{"name":"x"}] and the text [{"limit":1}] *)
Definition name_x : string :=
  "{" ++ Reference.quoted "name" ++ ":" ++ Reference.quoted "x" ++ "}".

Definition limit_1 : string := "{" ++ Reference.quoted "limit" ++ ":1}".

(** [toLowerCase] on the letters A to Z *)
Definition lower_ascii (c : ascii) : ascii :=
  let n := nat_of_ascii c in
  if bool_decide (65 ≤ n ≤ 90)%nat then ascii_of_nat (n + 32) else c.

Fixpoint lower (s : string) : string :=
  match s with
  | EmptyString => EmptyString
  | String c rest => String (lower_ascii c) (lower rest)
  end.

(** Two models with their route names, as the router gets them. *)
Definition exposed : list (string * Express.ApiDesc) :=
  [("User", {| Express.desc_singular := Some "user";
               Express.desc_plural := Some "users" |});
   ("Post", {| Express.desc_singular := Some "post";
               Express.desc_plural := Some "posts" |})].

(** A [configureList] that exposes what it is given, and one that knows of
    no model. *)
Definition as_given (configured : list (string * ApiGenerator.IModelConfigurationRaw unit))
    (allModels : list string)
    : completion (ApiGenerator.Exception unit)
        (option (list (string * ApiGenerator.IModelConfigurationRaw unit))) :=
  Returns (Some configured).

Definition unknown_model
    (configured : list (string * ApiGenerator.IModelConfigurationRaw unit))
    (allModels : list string)
    : completion (ApiGenerator.Exception unit)
        (option (list (string * ApiGenerator.IModelConfigurationRaw unit))) :=
  Throws (ApiGenerator.ReferenceError "Unknown model").

End Sample.

(** * Properties *)

(** ** lodash *)

Section lodash_facts.
Context {A : Type}.
Implicit Types (object : gmap string A) (paths : list string).

Lemma lookup_pick object paths key :
  lodash.pick object paths !! key
  = if bool_decide (key ∈ paths) then object !! key else None.
Proof.
  unfold lodash.pick. case_bool_decide as Hk.
  - destruct (object !! key) as [v|] eqn:Hv.
    + by apply map_lookup_filter_Some.
    + apply map_lookup_filter_None. left. done.
  - apply map_lookup_filter_None. right. intros v _. done.
Qed.

Lemma lookup_omit object paths key :
  lodash.omit object paths !! key
  = if bool_decide (key ∈ paths) then None else object !! key.
Proof.
  unfold lodash.omit. case_bool_decide as Hk.
  - apply map_lookup_filter_None. right. intros v _ Hn. by apply Hn.
  - destruct (object !! key) as [v|] eqn:Hv.
    + by apply map_lookup_filter_Some.
    + apply map_lookup_filter_None. left. done.
Qed.

Lemma lookup_get object key d :
  lodash.get object key d = match object !! key with Some v => v | None => d end.
Proof. unfold lodash.get. by destruct (object !! key). Qed.

End lodash_facts.

Section mapValues_facts.
Context {E A B : Type}.
Implicit Types (object : gmap string A) (iteratee : A → string → completion E B).

(** An exception of [mapValues] is an exception of the iteratee at some
    entry of the object. *)
Lemma mapValues_Throws object iteratee e :
  lodash.mapValues object iteratee = Throws e →
  ∃ key val, object !! key = Some val ∧ iteratee val key = Throws e.
Proof.
  unfold lodash.mapValues.
  destruct (omap _ _) as [|e' failures] eqn:Hfail; [done|].
  intros [= <-].
  assert (e' ∈ e' :: failures) as Hin by apply list_elem_of_here.
  rewrite <- Hfail in Hin. apply list_elem_of_omap in Hin as ([key r] & Hkr & Hthrown).
  apply elem_of_map_to_list in Hkr. rewrite map_lookup_imap in Hkr.
  destruct (object !! key) as [val|] eqn:Hval; simplify_eq/=.
  exists key, val. split; [done|].
  by destruct (iteratee val key); simplify_eq/=.
Qed.

(** When the iteratee throws at some entry, so does [mapValues]. *)
Lemma mapValues_Throws_intro object iteratee key val e :
  object !! key = Some val → iteratee val key = Throws e →
  ∃ e', lodash.mapValues object iteratee = Throws e'.
Proof.
  intros Hval He. unfold lodash.mapValues.
  destruct (omap _ _) as [|e' failures] eqn:Hfail; [|by eexists].
  exfalso.
  assert (e ∈ omap (λ kr : string * completion E B, thrown kr.2)
    (map_to_list (map_imap (λ key val, Some (iteratee val key)) object))) as Hin.
  { apply list_elem_of_omap. exists (key, Throws e). split; [|done].
    apply elem_of_map_to_list. rewrite map_lookup_imap, Hval. simpl. by rewrite He. }
  rewrite Hfail in Hin. by apply elem_of_nil in Hin.
Qed.

(** A result of [mapValues] holds, under each key of the object, what the
    iteratee returned there, and nothing else. *)
Lemma mapValues_Returns object iteratee result :
  lodash.mapValues object iteratee = Returns result →
  ∀ key, result !! key = object !! key ≫= λ val, returned (iteratee val key).
Proof.
  unfold lodash.mapValues.
  destruct (omap _ _) as [|e' failures] eqn:Hfail; [|done].
  intros [= <-] key. rewrite lookup_omap, map_lookup_imap.
  by destruct (object !! key).
Qed.

End mapValues_facts.

(** ** ApiGenerator.parseQuery *)

Section parseQuery_facts.
Context `{JsonEngine}.
Import ApiGenerator.

Lemma where_no_option : "where" ∉ QUERY_OPTS.
Proof. compute_done. Qed.

(** The iteratee of [parseQuery] returns what [JSON.parse] returns. *)
Lemma returned_decode (val : string) :
  returned (match JSON_parse val with
            | Returns v => Returns v
            | Throws error =>
                Throws (MalformedQuery
                  (mkApiSyntaxError "Invalid syntax parsing query" error))
            end) = returned (JSON_parse val).
Proof. by destruct (JSON_parse val). Qed.

Lemma parseQuery_Returns_inv queryObj r :
  parseQuery queryObj = Returns r →
  (∀ key, raw r !! key = queryObj !! key ≫= λ val, returned (JSON_parse val))
  ∧ options r = lodash.pick (raw r) QUERY_OPTS
  ∧ where_ r = lodash.get (raw r) "where" (JObject (lodash.omit (raw r) QUERY_OPTS)).
Proof.
  unfold parseQuery.
  destruct (lodash.mapValues _ _) as [m|e] eqn:Hm; [|done].
  intros [= <-]. simpl. split; [|done].
  intros key. rewrite (mapValues_Returns _ _ _ Hm key).
  destruct (queryObj !! key) as [val|]; [|done]. apply returned_decode.
Qed.

(** An entry of [raw] is the decoded value of the entry of the query
    string under the same key. *)
Lemma lookup_raw queryObj r key v :
  parseQuery queryObj = Returns r →
  raw r !! key = Some v
  ↔ ∃ val, queryObj !! key = Some val ∧ JSON_parse val = Returns v.
Proof.
  intros (Hraw & _)%parseQuery_Returns_inv. rewrite Hraw.
  destruct (queryObj !! key) as [val|]; simpl.
  - destruct (JSON_parse val) as [v'|e] eqn:Hval; simpl; split.
    + intros [= ->]. by exists val.
    + intros (val' & [= <-] & Hv). congruence.
    + done.
    + intros (val' & [= <-] & Hv). congruence.
  - split; [done|]. by intros (val & ? & _).
Qed.

Lemma parseQuery_Throws queryObj :
  (∃ e, parseQuery queryObj = Throws e)
  ↔ ∃ key val e, queryObj !! key = Some val ∧ JSON_parse val = Throws e.
Proof.
  unfold parseQuery. split.
  - intros [e He]. destruct (lodash.mapValues _ _) as [m|e'] eqn:Hm; [done|].
    apply mapValues_Throws in Hm as (key & val & Hval & Hthrow).
    destruct (JSON_parse val) as [v|e''] eqn:Hparse; [done|]. by exists key, val, e''.
  - intros (key & val & e & Hval & Hparse).
    edestruct (mapValues_Throws_intro queryObj
      (λ val key, match JSON_parse val with
                  | Returns v => Returns v
                  | Throws error =>
                      Throws (MalformedQuery
                        (mkApiSyntaxError "Invalid syntax parsing query" error))
                  end) key val) as [e' He']; [done|by rewrite Hparse|].
    exists e'. by rewrite He'.
Qed.

(** X19. The exception [parseQuery] throws always carries the same fixed
    message and the error of [JSON.parse] for the value of some key: it is
    built from that error alone, neither the key nor the value is put in. *)
Lemma parseQuery_Throws_inv queryObj e :
  parseQuery queryObj = Throws e →
  ∃ key val error,
    queryObj !! key = Some val ∧ JSON_parse val = Throws error
    ∧ e = MalformedQuery (mkApiSyntaxError "Invalid syntax parsing query" error).
Proof.
  unfold parseQuery. destruct (lodash.mapValues _ _) as [m|e'] eqn:Hm; [done|].
  intros [= <-]. apply mapValues_Throws in Hm as (key & val & Hval & Hthrow).
  destruct (JSON_parse val) as [v|error] eqn:Hparse; [done|].
  exists key, val, error. by simplify_eq.
Qed.

Lemma parseQuery_Returns_intro queryObj :
  (∀ key val, queryObj !! key = Some val → ∃ v, JSON_parse val = Returns v) →
  ∃ r, parseQuery queryObj = Returns r.
Proof.
  intros Hall. destruct (parseQuery queryObj) as [r|e] eqn:Hp; [by eexists|].
  assert (∃ e, parseQuery queryObj = Throws e) as Hthrows by by eexists.
  apply parseQuery_Throws in Hthrows as (key & val & e' & Hval & Hparse).
  destruct (Hall _ _ Hval) as [v Hv]. congruence.
Qed.

(** Of a query string that [parseQuery] accepts, the keys [skip],
    [limit], [sort] and [page] make the options, each with its decoded
    value.  The search clause is the decoded value of the key [where] when
    the query string has one, whatever the other keys are; otherwise it is
    the object of the decoded values of the keys that are no option. *)
Lemma parseQuery_Returns_partition queryObj r :
  parseQuery queryObj = Returns r →
  (∀ key v,
     options r !! key = Some v
     ↔ (key ∈ QUERY_OPTS
        ∧ ∃ val, queryObj !! key = Some val ∧ JSON_parse val = Returns v))
  ∧ match queryObj !! "where" with
    | Some val => JSON_parse val = Returns (where_ r)
    | None =>
        ∃ predicate, where_ r = JObject predicate ∧
          ∀ key v,
            predicate !! key = Some v
            ↔ ((key ∉ QUERY_OPTS)
               ∧ ∃ val, queryObj !! key = Some val ∧ JSON_parse val = Returns v)
    end.
Proof.
  intros Hparse. pose proof (parseQuery_Returns_inv _ _ Hparse) as (Hraw & Hopt & Hwhere).
  split.
  - intros key v. rewrite Hopt, lookup_pick, <- (lookup_raw _ _ _ _ Hparse).
    case_bool_decide as Hkey; [tauto | split; [done | by intros [? _]]].
  - rewrite Hwhere, lookup_get.
    destruct (queryObj !! "where") as [val|] eqn:Hq.
    + destruct (raw r !! "where") as [w|] eqn:Hw.
      * apply (lookup_raw _ _ _ _ Hparse) in Hw as (val' & Hval' & Hdec). congruence.
      * rewrite Hraw, Hq in Hw. simpl in Hw.
        destruct (JSON_parse val) as [w|e] eqn:Hval; [done|].
        assert (∃ e, parseQuery queryObj = Throws e) as [e' He'].
        { apply parseQuery_Throws. by exists "where", val, e. }
        congruence.
    + assert (raw r !! "where" = None) as -> by by rewrite Hraw, Hq.
      eexists. split; [done|]. intros key v.
      rewrite lookup_omit, <- (lookup_raw _ _ _ _ Hparse).
      case_bool_decide as Hkey; [split; [done | by intros [? _]] | tauto].
Qed.

(** Decoding the re-encoded entries gives the entries back. *)
Lemma parseQuery_reencode predicate opts :
  (∀ key v, predicate !! key = Some v ∨ opts !! key = Some v →
     JSON_parse (JSON_stringify v) = Returns v) →
  ∃ r, parseQuery (reencode predicate opts) = Returns r
       ∧ raw r = predicate ∪ opts.
Proof.
  intros Hround.
  assert (∀ key val, reencode predicate opts !! key = Some val →
    ∃ v, (predicate ∪ opts) !! key = Some v ∧ val = JSON_stringify v
         ∧ JSON_parse val = Returns v) as Hentries.
  { intros key val. unfold reencode. rewrite !lookup_union, !lookup_fmap.
    destruct (predicate !! key) as [v|] eqn:Hp; simpl.
    - destruct (opts !! key); simpl; intros [= <-]; exists v; eauto.
    - destruct (opts !! key) as [v|] eqn:Ho; simpl; [|done].
      intros [= <-]. exists v. eauto. }
  destruct (parseQuery_Returns_intro (reencode predicate opts)) as [r Hr].
  { intros key val (v & _ & _ & Hv)%Hentries. by exists v. }
  exists r. split; [done|]. apply map_eq. intros key.
  destruct (parseQuery_Returns_inv _ _ Hr) as (Hraw & _). rewrite Hraw.
  destruct (reencode predicate opts !! key) as [val|] eqn:Hq; simpl.
  - destruct (Hentries _ _ Hq) as (v & Hv & _ & Hdec). by rewrite Hdec, Hv.
  - revert Hq. unfold reencode. rewrite !lookup_union, !lookup_fmap.
    by destruct (predicate !! key), (opts !! key).
Qed.

(** C8, amended. When the search clause [parseQuery] returns is an object
    with none of the keys [where], [skip], [limit], [sort] and [page], and
    the values decode from their encoding, then encoding the entries of
    the search clause and of the options, and parsing the result, gives
    the same search clause and the same options. *)
Theorem parseQuery_reencode_stable queryObj r predicate :
  parseQuery queryObj = Returns r →
  where_ r = JObject predicate →
  (∀ key, key ∈ "where" :: QUERY_OPTS → predicate !! key = None) →
  (∀ key v, predicate !! key = Some v ∨ options r !! key = Some v →
     JSON_parse (JSON_stringify v) = Returns v) →
  ∃ r', parseQuery (reencode predicate (options r)) = Returns r'
        ∧ where_ r' = where_ r ∧ options r' = options r.
Proof.
  intros Hparse Hwhere Hfree Hround.
  destruct (parseQuery_reencode predicate (options r) Hround) as (r' & Hr' & Hraw').
  exists r'. split; [done|].
  destruct (parseQuery_Returns_inv _ _ Hparse) as (_ & Hopt & _).
  destruct (parseQuery_Returns_inv _ _ Hr') as (_ & Hopt' & Hwhere').
  assert (∀ key, key ∉ QUERY_OPTS → options r !! key = None) as Honly.
  { intros key Hkey. rewrite Hopt, lookup_pick. by rewrite bool_decide_eq_false_2. }
  split.
  - rewrite Hwhere', Hraw', lookup_get, lookup_union, Hwhere.
    rewrite (Hfree "where") by apply list_elem_of_here.
    rewrite Honly by apply where_no_option. simpl.
    f_equal. apply map_eq. intros key. rewrite lookup_omit, lookup_union.
    case_bool_decide as Hkey.
    + by rewrite Hfree by by apply list_elem_of_further.
    + rewrite (Honly key Hkey). by destruct (predicate !! key).
  - rewrite Hopt', Hraw'. apply map_eq. intros key.
    rewrite lookup_pick, lookup_union. case_bool_decide as Hkey.
    + rewrite Hfree by by apply list_elem_of_further. by destruct (options r !! key).
    + by rewrite Honly.
Qed.

(** X18. The search clause of a query string without a key [where] is an
    object with none of the keys [where], [skip], [limit], [sort] and
    [page]. *)
Lemma parseQuery_no_where queryObj r :
  parseQuery queryObj = Returns r → queryObj !! "where" = None →
  ∃ predicate, where_ r = JObject predicate
    ∧ ∀ key, key ∈ "where" :: QUERY_OPTS → predicate !! key = None.
Proof.
  intros Hparse Hq. destruct (parseQuery_Returns_inv _ _ Hparse) as (Hraw & _ & Hwhere).
  assert (raw r !! "where" = None) as Hw by by rewrite Hraw, Hq.
  exists (lodash.omit (raw r) QUERY_OPTS). split.
  - by rewrite Hwhere, lookup_get, Hw.
  - intros key [->|Hkey]%elem_of_cons; rewrite lookup_omit.
    + by case_bool_decide.
    + by rewrite bool_decide_eq_true_2.
Qed.

(** X20. Encoded under the key [where], beside the encoded options, any
    search clause comes back from [parseQuery] whatever its keys, and so do
    the options, given that the values decode from their encoding. *)
Lemma parseQuery_where_stable queryObj r :
  parseQuery queryObj = Returns r →
  JSON_parse (JSON_stringify (where_ r)) = Returns (where_ r) →
  (∀ key v, options r !! key = Some v → JSON_parse (JSON_stringify v) = Returns v) →
  ∃ r', parseQuery (reencode {[ "where" := where_ r ]} (options r)) = Returns r'
        ∧ where_ r' = where_ r ∧ options r' = options r.
Proof.
  intros Hparse Hwhere Hround.
  destruct (parseQuery_reencode {[ "where" := where_ r ]} (options r))
    as (r' & Hr' & Hraw').
  { intros key v [[_ <-]%lookup_singleton_Some|Hv]; eauto. }
  exists r'. split; [done|].
  destruct (parseQuery_Returns_inv _ _ Hparse) as (_ & Hopt & _).
  destruct (parseQuery_Returns_inv _ _ Hr') as (_ & Hopt' & Hwhere').
  split.
  - by rewrite Hwhere', Hraw', lookup_get, lookup_union, lookup_singleton_eq,
      union_Some_l.
  - rewrite Hopt', Hraw'. apply map_eq. intros key.
    rewrite lookup_pick, lookup_union. case_bool_decide as Hkey.
    + rewrite lookup_singleton_ne; [by destruct (options r !! key)|].
      intros <-. by apply where_no_option.
    + by rewrite Hopt, lookup_pick, bool_decide_eq_false_2.
Qed.

(** An empty query string has an empty search clause and no option. *)
Lemma parseQuery_empty :
  parseQuery ∅ = Returns {| raw := ∅; options := ∅; where_ := JObject ∅ |}.
Proof. reflexivity. Qed.

End parseQuery_facts.

(** ** The handlers of the router *)

Section handler_facts.
Import Express.
Context `{engine : JsonEngine} `{model : ModelLayer} `{utils : !Utils}.
#[local] Open Scope list_scope.

(** The router's [parseQuery] throws in two cases: the query string has a
    key [hasOwnProperty], and the call of the method is a [TypeError]; or
    it has none, and has a key [query] whose value [JSON.parse] rejects. *)
Lemma router_parseQuery_Throws queryObj e :
  Express.parseQuery queryObj = Throws e
  ↔ (is_Some (queryObj !! "hasOwnProperty") ∧ e = NotAFunction)
    ∨ (queryObj !! "hasOwnProperty" = None
       ∧ ∃ text cause, queryObj !! "query" = Some text
           ∧ JSON_parse text = Throws cause ∧ e = Undecodable cause).
Proof.
  unfold Express.parseQuery.
  destruct (queryObj !! "hasOwnProperty") as [shadow|].
  { split.
    - intros [= <-]. left. by split; [eexists|].
    - intros [[_ ->]|[? _]]; [done|discriminate]. }
  destruct (queryObj !! "query") as [text|].
  - destruct (JSON_parse text) as [v|cause] eqn:Hparse; split.
    + done.
    + intros [[[? ?] _]|[_ (text' & cause & [= <-] & Hthrows & _)]];
        [discriminate|congruence].
    + intros [= <-]. right. split; [done|]. by exists text, cause.
    + intros [[[? ?] _]|[_ (text' & cause' & [= <-] & Hthrows & ->)]];
        [discriminate|congruence].
  - split; [done|].
    intros [[[? ?] _]|[_ (text & cause & ? & _)]]; discriminate.
Qed.

(** With neither a key [hasOwnProperty] nor a key [query], the query is
    the object of the keys that are no option, each with the string it
    came with. *)
Lemma router_parseQuery_plain queryObj :
  queryObj !! "hasOwnProperty" = None →
  queryObj !! "query" = None →
  Express.parseQuery queryObj = Returns {|
    query := JObject (JString <$> lodash.omit queryObj QUERY_OPTS);
    options := JString <$> lodash.pick queryObj QUERY_OPTS |}.
Proof. intros Hown Hq. unfold Express.parseQuery. by rewrite Hown, Hq. Qed.

(** A query string the router's [parseQuery] accepts has no key
    [hasOwnProperty]. *)
Lemma router_parseQuery_Returns_own queryObj parsed :
  Express.parseQuery queryObj = Returns parsed →
  queryObj !! "hasOwnProperty" = None.
Proof.
  unfold Express.parseQuery.
  by destruct (queryObj !! "hasOwnProperty").
Qed.

(** What the router's [parseQuery] returns, entry by entry: the options
    are the strings as they came, and the query is the decoded value of
    the key [query] or else the other entries, as they came. *)
Lemma router_parseQuery_Returns_partition queryObj parsed :
  Express.parseQuery queryObj = Returns parsed →
  (∀ key v,
     options parsed !! key = Some v
     ↔ (key ∈ QUERY_OPTS ∧ ∃ val, queryObj !! key = Some val ∧ v = JString val))
  ∧ match queryObj !! "query" with
    | Some text => JSON_parse text = Returns (query parsed)
    | None =>
        ∃ o, query parsed = JObject o ∧
          ∀ key v,
            o !! key = Some v
            ↔ ((key ∉ QUERY_OPTS)
               ∧ ∃ val, queryObj !! key = Some val ∧ v = JString val)
    end.
Proof.
  unfold Express.parseQuery. intros Hparse.
  destruct (queryObj !! "hasOwnProperty") as [shadow|]; [done|].
  assert (options parsed = JString <$> lodash.pick queryObj QUERY_OPTS) as Hopt.
  { destruct (queryObj !! "query") as [text|]; [|by injection Hparse as <-].
    destruct (JSON_parse text); [by injection Hparse as <-|done]. }
  split.
  - intros key v. rewrite Hopt, lookup_fmap, lookup_pick.
    case_bool_decide as Hkey.
    + destruct (queryObj !! key) as [val|]; simpl; split.
      * intros [= <-]. eauto.
      * by intros (_ & val' & [= <-] & ->).
      * done.
      * by intros (_ & val' & ? & _).
    + split; [done|]. by intros [? _].
  - destruct (queryObj !! "query") as [text|].
    + destruct (JSON_parse text); [by injection Hparse as <-|done].
    + injection Hparse as <-. eexists. split; [done|]. intros key v.
      rewrite lookup_fmap, lookup_omit. case_bool_decide as Hkey.
      * split; [done|]. by intros [? _].
      * destruct (queryObj !! key) as [val|]; simpl; split.
        -- intros [= <-]. eauto.
        -- by intros (_ & val' & [= <-] & ->).
        -- done.
        -- by intros (_ & val' & ? & _).
Qed.

(** C3, amended. Of a query string that [ApiGenerator.parseQuery]
    accepts, the keys [skip], [limit], [sort] and [page] make the options,
    each with its decoded value; the search clause is the decoded value of
    the key [where] when the query string has one, whatever the other keys
    are, and otherwise the object of the decoded values of the keys that
    are no option.  The router's own [parseQuery] does otherwise.  Of a
    query string that it accepts, the options are the entries under the
    same four keys, each with the string it came with, not decoded.  The
    key that replaces the query is [query], not [where]: the query is the
    decoded value of [query] when there is one, and otherwise the object
    of the entries that are no option, each with the string it came with;
    a key [where] is then an entry like any other. *)
Theorem parseQuery_partition :
  (∀ queryObj r,
     ApiGenerator.parseQuery queryObj = Returns r →
     (∀ key v,
        ApiGenerator.options r !! key = Some v
        ↔ (key ∈ QUERY_OPTS
           ∧ ∃ val, queryObj !! key = Some val ∧ JSON_parse val = Returns v))
     ∧ match queryObj !! "where" with
       | Some val => JSON_parse val = Returns (ApiGenerator.where_ r)
       | None =>
           ∃ predicate, ApiGenerator.where_ r = JObject predicate ∧
             ∀ key v,
               predicate !! key = Some v
               ↔ ((key ∉ QUERY_OPTS)
                  ∧ ∃ val, queryObj !! key = Some val
                           ∧ JSON_parse val = Returns v)
       end)
  ∧ (∀ queryObj parsed,
     Express.parseQuery queryObj = Returns parsed →
     (∀ key v,
        options parsed !! key = Some v
        ↔ (key ∈ QUERY_OPTS
           ∧ ∃ val, queryObj !! key = Some val ∧ v = JString val))
     ∧ match queryObj !! "query" with
       | Some text => JSON_parse text = Returns (query parsed)
       | None =>
           ∃ o, query parsed = JObject o
             ∧ (∀ key v,
                  o !! key = Some v
                  ↔ ((key ∉ QUERY_OPTS)
                     ∧ ∃ val, queryObj !! key = Some val ∧ v = JString val))
             ∧ (∀ val, queryObj !! "where" = Some val →
                  o !! "where" = Some (JString val))
       end).
Proof.
  split; [exact parseQuery_Returns_partition|].
  intros queryObj parsed Hparse.
  destruct (router_parseQuery_Returns_partition _ _ Hparse) as [Hoptions Hquery].
  split; [exact Hoptions|].
  destruct (queryObj !! "query") as [text|]; [exact Hquery|].
  destruct Hquery as (o & Ho & Hentries). exists o. split; [done|].
  split; [exact Hentries|].
  intros val Hval. apply Hentries. split; [compute_done|]. by exists val.
Qed.

Lemma singular_Throws req continue w e :
  Express.parseQuery (req_query req) = Throws e →
  singular req continue w
  = (Returns (res_send (Some (malformed e)) (res_status 400 res)), w).
Proof. intros Hparse. unfold singular. by rewrite Hparse. Qed.

Lemma plural_Throws req continue w e :
  Express.parseQuery (req_query req) = Throws e →
  plural req continue w
  = (Returns (res_send (Some (malformed e)) (res_status 400 res)), w).
Proof. intros Hparse. unfold plural. by rewrite Hparse. Qed.

Lemma singular_Returns req continue w parsed q :
  Express.parseQuery (req_query req) = Returns parsed →
  fold_id req (query parsed) = Returns q →
  singular req continue w
  = let '(sent, w') := continue q (options parsed) w in (Returns sent, w').
Proof. intros Hparse Hfold. unfold singular. by rewrite Hparse, Hfold. Qed.

Lemma plural_Returns req continue w parsed :
  Express.parseQuery (req_query req) = Returns parsed →
  plural req continue w
  = let '(sent, w') := continue (query parsed) (options parsed) w in (Returns sent, w').
Proof. intros Hparse. unfold plural. by rewrite Hparse. Qed.

(** When the identifier of the path cannot be assigned to the query, which
    is then [null] or a primitive, the [TypeError] escapes the handler. *)
Lemma singular_TypeError h req w parsed e :
  h ∈ singular_route →
  Express.parseQuery (req_query req) = Returns parsed →
  fold_id req (query parsed) = Throws e →
  h req w = (Throws e, w).
Proof.
  intros Hh Hparse Hfold. unfold singular_route in Hh.
  repeat (apply elem_of_cons in Hh as [->|Hh]);
    try (unfold _get, _post, _put, _delete, singular; by rewrite Hparse, Hfold).
  by apply elem_of_nil in Hh.
Qed.

(** Every handler answers a query string it cannot parse with the same
    400, and leaves the world as it found it. *)
Lemma handler_Throws h req w e :
  h ∈ singular_route ++ plural_route →
  Express.parseQuery (req_query req) = Throws e →
  h req w = (Returns {| code := 400; content := Text (malformed e) |}, w).
Proof.
  intros Hh Hparse. unfold singular_route, plural_route in Hh. simpl in Hh.
  repeat (apply elem_of_cons in Hh as [->|Hh]);
    try (by apply singular_Throws); try (by apply plural_Throws).
  by apply elem_of_nil in Hh.
Qed.

(** Running the promise chain of a handler on the world at hand. *)
Ltac settle :=
  unfold catch_, then_, construct, invoke, resolve; simpl;
  repeat match goal with
         | Heq : ?op = (_, _) |- context [?op] => rewrite Heq; simpl
         end;
  rewrite <- ?app_assoc; simpl.

Lemma _delete_resolved req w parsed q s1 :
  Express.parseQuery (req_query req) = Returns parsed →
  fold_id req (query parsed) = Returns q →
  model_delete q (options parsed) (store w) = (Returns tt, s1) →
  _delete req w
  = (Returns {| code := 200; content := NoBody |},
     {| store := s1; calls := calls w ++ [call_delete q (options parsed)] |}).
Proof.
  intros Hparse Hfold Hdelete. unfold _delete.
  rewrite (singular_Returns _ _ _ _ _ Hparse Hfold). by settle.
Qed.

Lemma _get_not_found req w parsed q s1 :
  Express.parseQuery (req_query req) = Returns parsed →
  fold_id req (query parsed) = Returns q →
  model_find q (options parsed) (store w) = (Returns None, s1) →
  _get req w
  = (Returns {| code := 404; content := NoBody |},
     {| store := s1; calls := calls w ++ [call_find q (options parsed)] |}).
Proof.
  intros Hparse Hfold Hfind. unfold _get.
  rewrite (singular_Returns _ _ _ _ _ Hparse Hfold). by settle.
Qed.

Lemma _put_not_found req w parsed q s1 :
  Express.parseQuery (req_query req) = Returns parsed →
  fold_id req (query parsed) = Returns q →
  lodash.isEmpty q = false →
  model_find q (options parsed) (store w) = (Returns None, s1) →
  _put req w
  = (Returns {| code := 404; content := NoBody |},
     {| store := s1; calls := calls w ++ [call_find q (options parsed)] |}).
Proof.
  intros Hparse Hfold Hfull Hfind. unfold _put.
  rewrite (singular_Returns _ _ _ _ _ Hparse Hfold), Hfull. by settle.
Qed.

Lemma _post_not_found req w parsed q s1 :
  Express.parseQuery (req_query req) = Returns parsed →
  fold_id req (query parsed) = Returns q →
  lodash.isEmpty q = false →
  model_update q (req_body req) (options parsed) (store w) = (Returns None, s1) →
  _post req w
  = (Returns {| code := 404; content := NoBody |},
     {| store := s1;
        calls := calls w ++ [call_update q (req_body req) (options parsed)] |}).
Proof.
  intros Hparse Hfold Hfull Hupdate. unfold _post.
  rewrite (singular_Returns _ _ _ _ _ Hparse Hfold), Hfull. by settle.
Qed.

(** C1. A singular POST or PUT whose query, once the identifier of the
    path is folded in, is empty spawns an entity from the body and
    persists it: these are the only calls to the model layer.  When the
    entity is persisted the response is a 201 with the serialization of the
    persisted entity. *)
Theorem create_on_empty_query h req w parsed q entity s1 :
  h ∈ [_post; _put] →
  Express.parseQuery (req_query req) = Returns parsed →
  fold_id req (query parsed) = Returns q →
  lodash.isEmpty q = true →
  entity_persist (model_spawn (req_body req)) (store w) = (Returns entity, s1) →
  h req w
  = (Returns {| code := 201; content := Json (entity_toObject entity) |},
     {| store := s1;
        calls := calls w ++ [call_spawn (req_body req);
                             call_persist (model_spawn (req_body req))] |}).
Proof.
  intros Hh Hparse Hfold Hempty Hpersist.
  repeat (apply elem_of_cons in Hh as [->|Hh]); [| |by apply elem_of_nil in Hh].
  - unfold _post. rewrite (singular_Returns _ _ _ _ _ Hparse Hfold), Hempty. by settle.
  - unfold _put. rewrite (singular_Returns _ _ _ _ _ Hparse Hfold), Hempty. by settle.
Qed.

(** C2. A singular PUT with a query that is not empty looks the entity
    up.  Without a match the response is a 404 with no body.  With a match
    the attributes of the entity are replaced by the body (given that
    [replaceAttributes] sets the attributes to its argument, the entity
    handed to [persist] has exactly the body as attributes), the entity is
    persisted, and the response carries the serialization of the persisted
    entity. *)
Theorem replace_on_put req w parsed q :
  Express.parseQuery (req_query req) = Returns parsed →
  fold_id req (query parsed) = Returns q →
  lodash.isEmpty q = false →
  (∀ newContent entity,
     entity_attributes (entity_replaceAttributes newContent entity) = newContent) →
  (∀ s1,
     model_find q (options parsed) (store w) = (Returns None, s1) →
     _put req w
     = (Returns {| code := 404; content := NoBody |},
        {| store := s1; calls := calls w ++ [call_find q (options parsed)] |}))
  ∧ (∀ entity persisted s1 s2,
     model_find q (options parsed) (store w) = (Returns (Some entity), s1) →
     entity_persist (entity_replaceAttributes (req_body req) entity) s1
     = (Returns persisted, s2) →
     entity_attributes (entity_replaceAttributes (req_body req) entity) = req_body req
     ∧ _put req w
       = (Returns {| code := 200; content := Json (entity_toObject persisted) |},
          {| store := s2;
             calls := calls w ++ [call_find q (options parsed);
               call_persist (entity_replaceAttributes (req_body req) entity)] |})).
Proof.
  intros Hparse Hfold Hfull Hreplace. split.
  - intros s1 Hfind. by eapply _put_not_found.
  - intros entity persisted s1 s2 Hfind Hpersist. split; [apply Hreplace|].
    unfold _put. rewrite (singular_Returns _ _ _ _ _ Hparse Hfold), Hfull. by settle.
Qed.

(** C5. A plural GET whose set of results is empty answers 404 with the
    serialization of the empty set as body; a singular GET without a match
    answers 404 with no body. *)
Theorem not_found_bodies req w parsed :
  Express.parseQuery (req_query req) = Returns parsed →
  (∀ s1,
     model_findMany (query parsed) (options parsed) (store w) = (Returns [], s1) →
     Express.get req w
     = (Returns {| code := 404; content := Json (set_toObject []) |},
        {| store := s1;
           calls := calls w ++ [call_findMany (query parsed) (options parsed)] |}))
  ∧ (∀ q s1,
     fold_id req (query parsed) = Returns q →
     model_find q (options parsed) (store w) = (Returns None, s1) →
     _get req w
     = (Returns {| code := 404; content := NoBody |},
        {| store := s1; calls := calls w ++ [call_find q (options parsed)] |})).
Proof.
  intros Hparse. split.
  - intros s1 Hfind. unfold Express.get. rewrite (plural_Returns _ _ _ _ Hparse).
    by settle.
  - intros q s1 Hfold Hfind. by eapply _get_not_found.
Qed.

(** C6. A DELETE, singular or plural, whose query parses makes one call,
    the deletion, and once that resolves answers 200 with no body: nothing
    is looked up, and nothing depends on what the deletion matched. *)
Theorem delete_always_succeeds req w parsed :
  Express.parseQuery (req_query req) = Returns parsed →
  (∀ q s1,
     fold_id req (query parsed) = Returns q →
     model_delete q (options parsed) (store w) = (Returns tt, s1) →
     _delete req w
     = (Returns {| code := 200; content := NoBody |},
        {| store := s1; calls := calls w ++ [call_delete q (options parsed)] |}))
  ∧ (∀ s1,
     model_deleteMany (query parsed) (options parsed) (store w) = (Returns tt, s1) →
     Express.delete req w
     = (Returns {| code := 200; content := NoBody |},
        {| store := s1;
           calls := calls w ++ [call_deleteMany (query parsed) (options parsed)] |})).
Proof.
  intros Hparse. split.
  - intros q s1 Hfold Hdelete. by eapply _delete_resolved.
  - intros s1 Hdelete. unfold Express.delete. rewrite (plural_Returns _ _ _ _ Hparse).
    by settle.
Qed.

(** C7, amended. A singular DELETE whose target does not exist (a lookup
    of its query finds nothing) answers 200 with no body once the deletion
    resolves; the 404 of a missing singular target is that of the read, of
    the update and of the replacement. *)
Theorem delete_missing_target req w parsed q s0 s1 :
  Express.parseQuery (req_query req) = Returns parsed →
  fold_id req (query parsed) = Returns q →
  model_find q (options parsed) (store w) = (Returns None, s0) →
  model_delete q (options parsed) (store w) = (Returns tt, s1) →
  _delete req w
  = (Returns {| code := 200; content := NoBody |},
     {| store := s1; calls := calls w ++ [call_delete q (options parsed)] |})
  ∧ (_get req w).1 = Returns {| code := 404; content := NoBody |}
  ∧ (lodash.isEmpty q = false →
     (_put req w).1 = Returns {| code := 404; content := NoBody |})
  ∧ (lodash.isEmpty q = false → ∀ s2,
       model_update q (req_body req) (options parsed) (store w) = (Returns None, s2) →
       (_post req w).1 = Returns {| code := 404; content := NoBody |}).
Proof.
  intros Hparse Hfold Hfind Hdelete. repeat split.
  - by eapply _delete_resolved.
  - by erewrite _get_not_found.
  - intros Hfull. by erewrite _put_not_found.
  - intros Hfull s2 Hupdate. by erewrite _post_not_found.
Qed.

(** C9. Whatever the verb and the route, a request whose query string
    does not parse is answered 400, and the world the handler leaves is the
    one it found: the data source is the same and no call to the model
    layer was made. *)
Theorem malformed_query_no_call h req w e :
  h ∈ singular_route ++ plural_route →
  Express.parseQuery (req_query req) = Throws e →
  ∃ sent, h req w = (Returns sent, w) ∧ code sent = 400%Z.
Proof.
  intros Hh Hparse. eexists. split; [by apply handler_Throws|done].
Qed.

(** C10. A plural POST whose query is not empty and whose bulk update
    resolves to the empty set, and a plural PUT whose query is not empty
    and matches nothing (persisting the empty set gives the empty set),
    answer 404 with the serialization of the empty set as body. *)
Theorem bulk_update_no_match req w parsed :
  Express.parseQuery (req_query req) = Returns parsed →
  lodash.isEmpty (query parsed) = false →
  (∀ s1,
     model_updateMany (query parsed) (req_body req) (options parsed) (store w)
     = (Returns [], s1) →
     Express.post req w
     = (Returns {| code := 404; content := Json (set_toObject []) |},
        {| store := s1;
           calls := calls w ++ [call_updateMany (query parsed) (req_body req)
                                  (options parsed)] |}))
  ∧ (∀ s1 s2,
     model_findMany (query parsed) (options parsed) (store w) = (Returns [], s1) →
     set_persist [] s1 = (Returns [], s2) →
     Express.put req w
     = (Returns {| code := 404; content := Json (set_toObject []) |},
        {| store := s2;
           calls := calls w ++ [call_findMany (query parsed) (options parsed);
                                call_set_persist []] |})).
Proof.
  intros Hparse Hfull. split.
  - intros s1 Hupdate. unfold Express.post.
    rewrite (plural_Returns _ _ _ _ Hparse), Hfull. by settle.
  - intros s1 s2 Hfind Hpersist. unfold Express.put.
    rewrite (plural_Returns _ _ _ _ Hparse), Hfull. by settle.
Qed.

(** C4, amended. [ApiGenerator.parseQuery] throws exactly when
    [JSON.parse] rejects the value of some key.  The router's own
    [parseQuery] decodes the value of the key [query] only: of a query
    string without a key [hasOwnProperty] it throws exactly when
    [JSON.parse] rejects that value, and every handler then answers 400
    with a text made of a fixed sentence, which names the property
    [query], and of the text of the error of [JSON.parse].  (A key
    [hasOwnProperty] shadows the method that the parser calls: see
    [router_parseQuery_Throws].) *)
Theorem malformed_query_response :
  (∀ queryObj,
     (∃ e, ApiGenerator.parseQuery queryObj = Throws e)
     ↔ ∃ key val e, queryObj !! key = Some val ∧ JSON_parse val = Throws e)
  ∧ (∀ queryObj e,
     queryObj !! "hasOwnProperty" = None →
     Express.parseQuery queryObj = Throws e
     ↔ ∃ text cause, queryObj !! "query" = Some text
         ∧ JSON_parse text = Throws cause ∧ e = Undecodable cause)
  ∧ (∀ h req w cause,
     h ∈ singular_route ++ plural_route →
     Express.parseQuery (req_query req) = Throws (Undecodable cause) →
     h req w
     = (Returns {| code := 400;
                   content := Text ("Query property " ++ quote ++ "query" ++ quote
                     ++ " expected to be a valid JSON object:"
                     ++ error_toString cause)%string |},
        w)).
Proof.
  split; [apply parseQuery_Throws|]. split.
  - intros queryObj e Hown. rewrite router_parseQuery_Throws. split.
    + intros [[[shadow Hshadow] _]|[_ Hthrows]]; [congruence|done].
    + intros Hthrows. by right.
  - intros h req w cause Hh Hparse. by rewrite (handler_Throws _ _ _ _ Hh Hparse).
Qed.

(** X15. Without a key [query], the query of a singular request is empty,
    so that a POST or a PUT creates, exactly when the path has no identifier
    and every key of the query string is an option. *)
Lemma effective_query_empty req parsed q :
  req_query req !! "query" = None →
  Express.parseQuery (req_query req) = Returns parsed →
  fold_id req (query parsed) = Returns q →
  lodash.isEmpty q = true
  ↔ (∀ id, req_params_1 req = Some id → id = EmptyString)
    ∧ (∀ key val, req_query req !! key = Some val → key ∈ QUERY_OPTS).
Proof.
  intros Hq Hparse Hfold.
  rewrite (router_parseQuery_plain _ (router_parseQuery_Returns_own _ _ Hparse) Hq)
    in Hparse.
  injection Hparse as <-. simpl in Hfold.
  assert (lodash.isEmpty (JObject (JString <$> lodash.omit (req_query req) QUERY_OPTS))
          = true
          ↔ ∀ key val, req_query req !! key = Some val → key ∈ QUERY_OPTS)
    as Hplain.
  { simpl. rewrite bool_decide_eq_true, map_size_empty_iff, fmap_empty_iff, map_empty.
    split.
    - intros Hall key val Hval. specialize (Hall key). rewrite lookup_omit in Hall.
      case_bool_decide as Hkey; [done|congruence].
    - intros Hall key. rewrite lookup_omit. case_bool_decide as Hkey; [done|].
      destruct (req_query req !! key) as [val|] eqn:Hval; [|done].
      by apply Hall in Hval. }
  unfold fold_id in Hfold. destruct (req_params_1 req) as [id|].
  - case_bool_decide as Hid.
    + injection Hfold as <-. rewrite Hplain. split.
      * intros Hall. split; [|done]. intros id' [= <-]. by destruct id.
      * by intros [_ Hall].
    + injection Hfold as <-. simpl. split.
      * intros Hsize%bool_decide_eq_true%map_size_empty_iff.
        by apply insert_non_empty in Hsize.
      * intros [Hnone _]. by rewrite (Hnone id eq_refl) in Hid.
  - injection Hfold as <-. rewrite Hplain. split; [|by intros [_ Hall]].
    intros Hall. by split.
Qed.

End handler_facts.

(** ** More on the router: its own parseQuery, the other branches *)

Section router_facts.
Import Express.
Context `{engine : JsonEngine} `{model : ModelLayer} `{utils : !Utils}.
#[local] Open Scope list_scope.

(** X1. Of a query string that the router's [parseQuery] accepts, the
    options are the entries under [skip], [limit], [sort] and [page], each
    with the string it came with, never decoded; the query is the decoded
    value of the key [query] when there is one, whatever the other keys are,
    and otherwise the object of the entries that are no option, each with
    the string it came with. *)
Theorem router_parseQuery_partition queryObj parsed :
  Express.parseQuery queryObj = Returns parsed →
  (∀ key v,
     options parsed !! key = Some v
     ↔ (key ∈ QUERY_OPTS ∧ ∃ val, queryObj !! key = Some val ∧ v = JString val))
  ∧ match queryObj !! "query" with
    | Some text => JSON_parse text = Returns (query parsed)
    | None =>
        ∃ o, query parsed = JObject o ∧
          ∀ key v,
            o !! key = Some v
            ↔ ((key ∉ QUERY_OPTS)
               ∧ ∃ val, queryObj !! key = Some val ∧ v = JString val)
    end.
Proof. apply router_parseQuery_Returns_partition. Qed.

(** What [fold_id] throws, and when. *)
Lemma fold_id_Throws req query e :
  fold_id req query = Throws e
  ↔ ∃ id, req_params_1 req = Some id ∧ id ≠ EmptyString
          ∧ e = CannotCreateProperty "id" query
          ∧ match query with JObject _ | JArray _ => False | _ => True end.
Proof.
  unfold fold_id. destruct (req_params_1 req) as [id|].
  - case_bool_decide as Hid.
    + split; [done|]. intros (id' & [= <-] & Hne & _). by destruct id.
    + split.
      * intros Hset. exists id. split; [done|]. split; [by intros ->|].
        by destruct query; simplify_eq/=.
      * intros (id' & [= <-] & _ & -> & Hprim). by destruct query.
  - split; [done|]. by intros (id & ? & _).
Qed.

(** X2. When the query string parses, the path has an identifier that
    is not empty, and the query is [null], a boolean, a number or a
    string, each of the four singular handlers lets an exception escape:
    the [TypeError] of the assignment of [id], thrown before any call to
    the model layer, the world being as the handler found it. *)
Theorem singular_escape h req w parsed id :
  h ∈ singular_route →
  Express.parseQuery (req_query req) = Returns parsed →
  req_params_1 req = Some id →
  id ≠ EmptyString →
  match query parsed with JObject _ | JArray _ => False | _ => True end →
  h req w = (Throws (CannotCreateProperty "id" (query parsed)), w).
Proof.
  intros Hh Hparse Hid Hne Hprim.
  apply (singular_TypeError _ _ _ parsed); [done..|].
  apply fold_id_Throws. by exists id.
Qed.

(** Running a promise chain on the world at hand. *)
Ltac run :=
  unfold catch_, then_, construct, invoke, resolve; simpl;
  repeat match goal with
         | Heq : ?op = (_, _) |- context [?op] => rewrite Heq; simpl
         end;
  rewrite <- ?app_assoc; simpl.

(** X4. A singular GET that finds an entity answers 200 with its
    serialization, after the single call [find]. *)
Theorem _get_found req w parsed q entity s1 :
  Express.parseQuery (req_query req) = Returns parsed →
  fold_id req (query parsed) = Returns q →
  model_find q (options parsed) (store w) = (Returns (Some entity), s1) →
  _get req w
  = (Returns {| code := 200; content := Json (entity_toObject entity) |},
     {| store := s1; calls := calls w ++ [call_find q (options parsed)] |}).
Proof.
  intros Hparse Hfold Hfind. unfold _get.
  rewrite (singular_Returns _ _ _ _ _ Hparse Hfold). by run.
Qed.

(** X5. A plural GET whose [findMany] resolves always sends the
    serialization of the set it got; the status is 404 when the set is
    empty and 200 otherwise. *)
Theorem get_resolved req w parsed set s1 :
  Express.parseQuery (req_query req) = Returns parsed →
  model_findMany (query parsed) (options parsed) (store w) = (Returns set, s1) →
  Express.get req w
  = (Returns {| code := if bool_decide (length set = 0) then 404 else 200;
                content := Json (set_toObject set) |},
     {| store := s1;
        calls := calls w ++ [call_findMany (query parsed) (options parsed)] |}).
Proof.
  intros Hparse Hfind. unfold Express.get. rewrite (plural_Returns _ _ _ _ Hparse).
  run. by case_bool_decide.
Qed.

(** X6. A singular POST whose query is not empty makes the single call
    [update], with the query, the body and the options: nothing is looked
    up, spawned or persisted by the handler.  When the update resolves to an
    entity the response is a 200 with its serialization. *)
Theorem _post_updated req w parsed q entity s1 :
  Express.parseQuery (req_query req) = Returns parsed →
  fold_id req (query parsed) = Returns q →
  lodash.isEmpty q = false →
  model_update q (req_body req) (options parsed) (store w)
  = (Returns (Some entity), s1) →
  _post req w
  = (Returns {| code := 200; content := Json (entity_toObject entity) |},
     {| store := s1;
        calls := calls w ++ [call_update q (req_body req) (options parsed)] |}).
Proof.
  intros Hparse Hfold Hfull Hupdate. unfold _post.
  rewrite (singular_Returns _ _ _ _ _ Hparse Hfold), Hfull. by run.
Qed.

(** X7. A plural POST or PUT whose query is empty spawns a set from the
    body and persists it: these are the only calls.  When the set is
    persisted the response is a 201 with the serialization of the persisted
    set, whatever its length. *)
Theorem bulk_create h req w parsed set s1 :
  h ∈ [Express.post; Express.put] →
  Express.parseQuery (req_query req) = Returns parsed →
  lodash.isEmpty (query parsed) = true →
  set_persist (model_spawnMany (req_body req)) (store w) = (Returns set, s1) →
  h req w
  = (Returns {| code := 201; content := Json (set_toObject set) |},
     {| store := s1;
        calls := calls w ++ [call_spawnMany (req_body req);
                             call_set_persist (model_spawnMany (req_body req))] |}).
Proof.
  intros Hh Hparse Hempty Hpersist.
  repeat (apply elem_of_cons in Hh as [->|Hh]); [| |by apply elem_of_nil in Hh].
  - unfold Express.post. rewrite (plural_Returns _ _ _ _ Hparse), Hempty. by run.
  - unfold Express.put. rewrite (plural_Returns _ _ _ _ Hparse), Hempty. by run.
Qed.

(** X8. A plural POST whose query is not empty makes the single call
    [updateMany], with the query, the body and the options, and sends the
    serialization of the set it resolved to, with status 404 when that set
    is empty and 200 otherwise. *)
Theorem bulk_update_resolved req w parsed updated s1 :
  Express.parseQuery (req_query req) = Returns parsed →
  lodash.isEmpty (query parsed) = false →
  model_updateMany (query parsed) (req_body req) (options parsed) (store w)
  = (Returns updated, s1) →
  Express.post req w
  = (Returns {| code := if bool_decide (length updated = 0) then 404 else 200;
                content := Json (set_toObject updated) |},
     {| store := s1;
        calls := calls w ++ [call_updateMany (query parsed) (req_body req)
                               (options parsed)] |}).
Proof.
  intros Hparse Hfull Hupdate. unfold Express.post.
  rewrite (plural_Returns _ _ _ _ Hparse), Hfull. run. by case_bool_decide.
Qed.

(** X9. When the model layer rejects, a singular handler answers with
    what [respondError] makes of the rejection, given the response object
    still at status 200, and makes no further call: so for the [find] of a
    GET, the [delete] of a DELETE, the [persist] of a creation, the [update]
    of a POST, and for the [find] of a PUT as well as for its [persist]. *)
Theorem singular_rejected req w parsed q err s1 :
  Express.parseQuery (req_query req) = Returns parsed →
  fold_id req (query parsed) = Returns q →
  (model_find q (options parsed) (store w) = (Throws err, s1) →
   _get req w
   = (Returns (respondError res err),
      {| store := s1; calls := calls w ++ [call_find q (options parsed)] |}))
  ∧ (model_delete q (options parsed) (store w) = (Throws err, s1) →
     _delete req w
     = (Returns (respondError res err),
        {| store := s1; calls := calls w ++ [call_delete q (options parsed)] |}))
  ∧ (lodash.isEmpty q = true →
     entity_persist (model_spawn (req_body req)) (store w) = (Throws err, s1) →
     ∀ h, h ∈ [_post; _put] →
       h req w
       = (Returns (respondError res err),
          {| store := s1;
             calls := calls w ++ [call_spawn (req_body req);
                                  call_persist (model_spawn (req_body req))] |}))
  ∧ (lodash.isEmpty q = false →
     model_update q (req_body req) (options parsed) (store w) = (Throws err, s1) →
     _post req w
     = (Returns (respondError res err),
        {| store := s1;
           calls := calls w ++ [call_update q (req_body req) (options parsed)] |}))
  ∧ (lodash.isEmpty q = false →
     model_find q (options parsed) (store w) = (Throws err, s1) →
     _put req w
     = (Returns (respondError res err),
        {| store := s1; calls := calls w ++ [call_find q (options parsed)] |}))
  ∧ (lodash.isEmpty q = false →
     ∀ entity s0,
       model_find q (options parsed) (store w) = (Returns (Some entity), s0) →
       entity_persist (entity_replaceAttributes (req_body req) entity) s0
       = (Throws err, s1) →
       _put req w
       = (Returns (respondError res err),
          {| store := s1;
             calls := calls w ++ [call_find q (options parsed);
               call_persist (entity_replaceAttributes (req_body req) entity)] |})).
Proof.
  intros Hparse Hfold. repeat split.
  - intros Hfind. unfold _get. rewrite (singular_Returns _ _ _ _ _ Hparse Hfold). by run.
  - intros Hdelete. unfold _delete.
    rewrite (singular_Returns _ _ _ _ _ Hparse Hfold). by run.
  - intros Hempty Hpersist h Hh.
    repeat (apply elem_of_cons in Hh as [->|Hh]); [| |by apply elem_of_nil in Hh].
    + unfold _post. rewrite (singular_Returns _ _ _ _ _ Hparse Hfold), Hempty. by run.
    + unfold _put. rewrite (singular_Returns _ _ _ _ _ Hparse Hfold), Hempty. by run.
  - intros Hfull Hupdate. unfold _post.
    rewrite (singular_Returns _ _ _ _ _ Hparse Hfold), Hfull. by run.
  - intros Hfull Hfind. unfold _put.
    rewrite (singular_Returns _ _ _ _ _ Hparse Hfold), Hfull. by run.
  - intros Hfull entity s0 Hfind Hpersist. unfold _put.
    rewrite (singular_Returns _ _ _ _ _ Hparse Hfold), Hfull. by run.
Qed.

(** X10. The same for the plural handlers: a rejection of [findMany],
    of [deleteMany], of [updateMany] or of the [persist] of a set, be it
    spawned or found, is answered with what [respondError] makes of it, and
    a PUT that cannot look its set up persists nothing. *)
Theorem plural_rejected req w parsed err s1 :
  Express.parseQuery (req_query req) = Returns parsed →
  (model_findMany (query parsed) (options parsed) (store w) = (Throws err, s1) →
   Express.get req w
   = (Returns (respondError res err),
      {| store := s1;
         calls := calls w ++ [call_findMany (query parsed) (options parsed)] |}))
  ∧ (model_deleteMany (query parsed) (options parsed) (store w) = (Throws err, s1) →
     Express.delete req w
     = (Returns (respondError res err),
        {| store := s1;
           calls := calls w ++ [call_deleteMany (query parsed) (options parsed)] |}))
  ∧ (lodash.isEmpty (query parsed) = true →
     set_persist (model_spawnMany (req_body req)) (store w) = (Throws err, s1) →
     ∀ h, h ∈ [Express.post; Express.put] →
       h req w
       = (Returns (respondError res err),
          {| store := s1;
             calls := calls w ++ [call_spawnMany (req_body req);
               call_set_persist (model_spawnMany (req_body req))] |}))
  ∧ (lodash.isEmpty (query parsed) = false →
     model_updateMany (query parsed) (req_body req) (options parsed) (store w)
     = (Throws err, s1) →
     Express.post req w
     = (Returns (respondError res err),
        {| store := s1;
           calls := calls w ++ [call_updateMany (query parsed) (req_body req)
                                  (options parsed)] |}))
  ∧ (lodash.isEmpty (query parsed) = false →
     model_findMany (query parsed) (options parsed) (store w) = (Throws err, s1) →
     Express.put req w
     = (Returns (respondError res err),
        {| store := s1;
           calls := calls w ++ [call_findMany (query parsed) (options parsed)] |}))
  ∧ (lodash.isEmpty (query parsed) = false →
     ∀ found s0,
       model_findMany (query parsed) (options parsed) (store w) = (Returns found, s0) →
       set_persist (entity_replaceAttributes (req_body req) <$> found) s0
       = (Throws err, s1) →
       Express.put req w
       = (Returns (respondError res err),
          {| store := s1;
             calls := calls w ++ [call_findMany (query parsed) (options parsed);
               call_set_persist (entity_replaceAttributes (req_body req) <$> found)] |})).
Proof.
  intros Hparse. repeat split.
  - intros Hfind. unfold Express.get. rewrite (plural_Returns _ _ _ _ Hparse). by run.
  - intros Hdelete. unfold Express.delete. rewrite (plural_Returns _ _ _ _ Hparse).
    by run.
  - intros Hempty Hpersist h Hh.
    repeat (apply elem_of_cons in Hh as [->|Hh]); [| |by apply elem_of_nil in Hh].
    + unfold Express.post. rewrite (plural_Returns _ _ _ _ Hparse), Hempty. by run.
    + unfold Express.put. rewrite (plural_Returns _ _ _ _ Hparse), Hempty. by run.
  - intros Hfull Hupdate. unfold Express.post.
    rewrite (plural_Returns _ _ _ _ Hparse), Hfull. by run.
  - intros Hfull Hfind. unfold Express.put.
    rewrite (plural_Returns _ _ _ _ Hparse), Hfull. by run.
  - intros Hfull found s0 Hfind Hpersist. unfold Express.put.
    rewrite (plural_Returns _ _ _ _ Hparse), Hfull. by run.
Qed.

(** All the branches of a handler, one goal each. *)
Ltac branches :=
  unfold _get, _post, _put, _delete, Express.get, Express.post, Express.put,
    Express.delete, singular, plural, catch_, then_, construct, invoke, resolve;
  repeat case_match; simplify_eq/=.

(** X11. A GET changes nothing: the singular one makes no call to the
    model layer or the single call [find], the plural one no call or the
    single call [findMany]; and when these two leave the data source as it
    is, so does the handler. *)
Theorem get_reads_only req w :
  (calls (_get req w).2 = calls w
   ∨ ∃ q o, calls (_get req w).2 = calls w ++ [call_find q o])
  ∧ (calls (Express.get req w).2 = calls w
     ∨ ∃ q o, calls (Express.get req w).2 = calls w ++ [call_findMany q o])
  ∧ ((∀ q o s, (model_find q o s).2 = s) → store (_get req w).2 = store w)
  ∧ ((∀ q o s, (model_findMany q o s).2 = s) → store (Express.get req w).2 = store w).
Proof.
  repeat split.
  - branches; eauto.
  - branches; eauto.
  - intros Hpure. branches; try done;
      match goal with Heq : model_find ?q ?o ?s = (_, ?s') |- _ =>
        by rewrite <- (Hpure q o s), Heq end.
  - intros Hpure. branches; try done;
      match goal with Heq : model_findMany ?q ?o ?s = (_, ?s') |- _ =>
        by rewrite <- (Hpure q o s), Heq end.
Qed.

(** X12. A DELETE makes no call to the model layer but the deletion: the
    singular one [delete], the plural one [deleteMany], at most once. *)
Theorem delete_deletes_only req w :
  (calls (_delete req w).2 = calls w
   ∨ ∃ q o, calls (_delete req w).2 = calls w ++ [call_delete q o])
  ∧ (calls (Express.delete req w).2 = calls w
     ∨ ∃ q o, calls (Express.delete req w).2 = calls w ++ [call_deleteMany q o]).
Proof. split; branches; eauto. Qed.

Lemma singular_same req req' continue w parsed parsed' :
  Express.parseQuery (req_query req) = Returns parsed →
  Express.parseQuery (req_query req') = Returns parsed' →
  options parsed = options parsed' →
  fold_id req (query parsed) = fold_id req' (query parsed') →
  singular req continue w = singular req' continue w.
Proof.
  intros Hparse Hparse' Hopt Hfold. unfold singular.
  by rewrite Hparse, Hparse', Hopt, Hfold.
Qed.

(** X14. On a singular route whose path has an identifier, that
    identifier is the [id] of the query whatever [id] the query string had:
    a key [id] of the query string (one without the key [query]) makes no
    difference to what the handler does. *)
Theorem path_id_overrides h req w id :
  h ∈ singular_route →
  req_query req !! "query" = None →
  req_params_1 req = Some id → id ≠ EmptyString →
  h req w
  = h {| req_query := base.delete "id" (req_query req);
         req_params_1 := req_params_1 req;
         req_body := req_body req |} w.
Proof.
  intros Hh Hq Hid Hne.
  set (req' := {| req_query := base.delete "id" (req_query req);
                  req_params_1 := req_params_1 req;
                  req_body := req_body req |}).
  assert (req_query req' !! "query" = None) as Hq'.
  { simpl. by rewrite lookup_delete_ne. }
  assert (req_query req' !! "hasOwnProperty" = req_query req !! "hasOwnProperty")
    as Hown'.
  { simpl. by rewrite lookup_delete_ne. }
  destruct (req_query req !! "hasOwnProperty") as [shadow|] eqn:Hown.
  { assert (∀ r : Request, req_query r !! "hasOwnProperty" = Some shadow →
              Express.parseQuery (req_query r) = Throws NotAFunction) as Hshadow.
    { intros r Hr. unfold Express.parseQuery. by rewrite Hr. }
    assert (h ∈ singular_route ++ plural_route) as Hin.
    { apply elem_of_app. by left. }
    by rewrite (handler_Throws _ _ _ _ Hin (Hshadow req Hown)),
      (handler_Throws _ _ _ _ Hin (Hshadow req' Hown')). }
  pose proof (router_parseQuery_plain _ Hown Hq) as Hparse.
  pose proof (router_parseQuery_plain _ Hown' Hq') as Hparse'.
  assert (∀ continue, singular req continue w = singular req' continue w) as Hsame.
  { intros continue. eapply singular_same; [done..| |]; simpl.
    - f_equal. apply map_eq. intros key. rewrite !lookup_pick.
      case_bool_decide as Hkey; [|done]. rewrite lookup_delete_ne; [done|].
      intros <-. revert Hkey. compute_done.
    - unfold fold_id. simpl. rewrite Hid. case_bool_decide as Hlen.
      { by destruct id. }
      simpl. do 2 f_equal. apply map_eq. intros key.
      destruct (decide (key = "id")) as [->|Hkey].
      + by rewrite !lookup_insert_eq.
      + rewrite !lookup_insert_ne, !lookup_fmap, !lookup_omit by done.
        case_bool_decide; [done|]. by rewrite lookup_delete_ne. }
  unfold singular_route in Hh.
  repeat (apply elem_of_cons in Hh as [->|Hh]); [..|by apply elem_of_nil in Hh];
    apply Hsame.
Qed.

End router_facts.

(** ** More on ApiGenerator: parseQuery, the constructor, setIdFromIdHash *)

Section parseQuery_more.
Context `{JsonEngine}.
Import ApiGenerator.

(** X16. [parseQuery] neither drops nor invents a key: [raw] has exactly
    the keys of the query string.  Without a key [where], the options and
    the search clause split [raw]: they have no key in common, and together
    they are [raw]. *)
Theorem parseQuery_raw_split queryObj r :
  parseQuery queryObj = Returns r →
  dom (raw r) = dom queryObj
  ∧ (queryObj !! "where" = None →
     ∃ predicate, where_ r = JObject predicate
       ∧ options r ∪ predicate = raw r
       ∧ options r ##ₘ predicate).
Proof.
  intros Hparse. destruct (parseQuery_Returns_inv _ _ Hparse) as (Hraw & Hopt & Hwhere).
  split.
  - apply set_eq. intros key. rewrite !elem_of_dom, Hraw.
    destruct (queryObj !! key) as [val|] eqn:Hval; simpl.
    + destruct (JSON_parse val) as [v|e] eqn:Hdec; simpl; [by split; eauto|].
      assert (∃ e, parseQuery queryObj = Throws e) as [e' He'].
      { apply parseQuery_Throws. by exists key, val, e. }
      congruence.
    + split; by intros [? ?].
  - intros Hq. assert (raw r !! "where" = None) as Hw by by rewrite Hraw, Hq.
    exists (lodash.omit (raw r) QUERY_OPTS). split; [|split].
    + by rewrite Hwhere, lookup_get, Hw.
    + rewrite Hopt. apply map_eq. intros key.
      rewrite lookup_union, lookup_pick, lookup_omit.
      case_bool_decide; by destruct (raw r !! key).
    + rewrite Hopt. apply map_disjoint_spec. intros key v v'.
      rewrite lookup_pick, lookup_omit. by case_bool_decide.
Qed.

(** X17. What [parseQuery] makes of the options depends on the option keys
    of the query string only, and what it makes of a key [where] on that
    key only: two query strings that it accepts and that agree on the
    option keys have the same options, and two that have the same [where]
    have the same search clause. *)
Theorem parseQuery_depends queryObj queryObj' r r' :
  parseQuery queryObj = Returns r →
  parseQuery queryObj' = Returns r' →
  ((∀ key, key ∈ QUERY_OPTS → queryObj !! key = queryObj' !! key) →
   options r = options r')
  ∧ (∀ val, queryObj !! "where" = Some val → queryObj' !! "where" = Some val →
     where_ r = where_ r').
Proof.
  intros Hparse Hparse'.
  destruct (parseQuery_Returns_inv _ _ Hparse) as (Hraw & Hopt & Hwhere).
  destruct (parseQuery_Returns_inv _ _ Hparse') as (Hraw' & Hopt' & Hwhere').
  split.
  - intros Hagree. rewrite Hopt, Hopt'. apply map_eq. intros key.
    rewrite !lookup_pick. case_bool_decide as Hkey; [|done].
    by rewrite Hraw, Hraw', (Hagree key Hkey).
  - intros val Hq Hq'. rewrite Hwhere, Hwhere', !lookup_get, Hraw, Hraw', Hq, Hq'.
    simpl. destruct (JSON_parse val) as [v|e] eqn:Hdec; [done|].
    assert (∃ e, parseQuery queryObj = Throws e) as [e' He'].
    { apply parseQuery_Throws. by exists "where", val, e. }
    congruence.
Qed.

(** X24. [setIdFromIdHash] gives nothing exactly when [getProperties]
    does; otherwise its result has no [idHash] and is, under every other
    key, what [getProperties] gave: the function itself adds no [id]. *)
Theorem setIdFromIdHash_strips {Entity}
    (getProperties : Entity → option (gmap string json)) (entity : Entity) :
  (setIdFromIdHash getProperties entity = None ↔ getProperties entity = None)
  ∧ ∀ retVal, setIdFromIdHash getProperties entity = Some retVal →
      retVal !! "idHash" = None
      ∧ ∀ key, key ≠ "idHash" → retVal !! key = getProperties entity ≫= (.!! key).
Proof.
  unfold setIdFromIdHash. destruct (getProperties entity) as [properties|]; split;
    try done.
  intros retVal [= <-]. split; [apply lookup_delete_eq|].
  intros key Hkey. by rewrite lookup_delete_ne.
Qed.

End parseQuery_more.

Section constructor_facts.
Import ApiGenerator.
Context {Model Middleware Models Other T : Type}.
Variable toLowerCase : string → string.
Variable configureList : Models → list string →
  completion (Exception Other) (option (list (string * IModelConfigurationRaw Middleware))).
Variable Diaspora_models : gmap string Model.

Lemma no_model_registered :
  length (map_to_list Diaspora_models).*1 = 0 ↔ Diaspora_models = ∅.
Proof.
  rewrite length_fmap. split.
  - intros Hlen. apply map_to_list_empty_iff. by apply nil_length_inv.
  - intros ->. by rewrite map_to_list_empty.
Qed.

(** X21. When [configureList] returns, the constructor returns: the models
    it configures are those [configureList] gave, in the same order, and a
    line is logged for each.  The singular path of a model is the one given
    or else the lower-cased name of the model, its plural path the one given
    or else the lower-cased name followed by [s] (also when a singular path
    is given), and its model the one registered under its name. *)
Theorem constructor_configures configHash_models (middleware : T) configured :
  configureList configHash_models (map_to_list Diaspora_models).*1 = Returns configured →
  ∃ g : Generator Model Middleware T,
    constructor toLowerCase configureList Diaspora_models configHash_models middleware
    = Returns g
    ∧ (_modelsConfiguration g).*1 = (default [] configured).*1
    ∧ _middleware g = middleware
    ∧ length (logged g) = length (default [] configured)
    ∧ ∀ i modelName apiDesc,
        default [] configured !! i = Some (modelName, apiDesc) →
        ∃ c, _modelsConfiguration g !! i = Some (modelName, c)
          ∧ singular c
            = match apiDesc with
              | Described (Some given) _ _ => given
              | _ => toLowerCase modelName
              end
          ∧ plural c
            = match apiDesc with
              | Described _ (Some given) _ => given
              | _ => (toLowerCase modelName ++ "s")%string
              end
          ∧ model c = Diaspora_models !! modelName.
Proof.
  intros Hlist. unfold constructor. rewrite Hlist. eexists. split; [done|]. simpl.
  rewrite <- !list_fmap_compose, !length_fmap. split; [|split; [done|split; [done|]]].
  - apply list_fmap_ext. by intros i [modelName apiDesc] _.
  - intros i modelName apiDesc Hi. rewrite list_lookup_fmap, Hi. simpl.
    eexists. split; [done|].
    by destruct apiDesc as [|[given_singular|] [given_plural|] given].
Qed.

(** X22. The constructor throws exactly when [configureList] does.
    Anything but a [ReferenceError] is thrown on as it is; a
    [ReferenceError] is replaced by one whose message is a fixed sentence,
    the original message and a full stop, followed by the pointer to the
    documentation exactly when no model at all is registered. *)
Theorem constructor_rethrows configHash_models (middleware : T) e :
  constructor toLowerCase configureList Diaspora_models configHash_models middleware
  = Throws e
  ↔ ((∃ error,
        configureList configHash_models (map_to_list Diaspora_models).*1
        = Throws (Otherwise error)
        ∧ e = Otherwise error)
     ∨ ∃ message hint,
         configureList configHash_models (map_to_list Diaspora_models).*1
         = Throws (ReferenceError message)
         ∧ e = ReferenceError
                 ("Tried to configure Diaspora Server with unknown model. "
                  ++ "Original message: " ++ message ++ "." ++ hint)%string
         ∧ (Diaspora_models = ∅ →
            hint = (newline ++ "See https://goo.gl/Auj3DB for more infos.")%string)
         ∧ (Diaspora_models ≠ ∅ → hint = EmptyString)).
Proof.
  unfold constructor.
  destruct (configureList _ _) as [configured|[message|error]] eqn:Hlist.
  - split; [done|]. by intros [(error & ? & _)|(message & hint & ? & _)].
  - split.
    + intros [= <-]. right. eexists message, _. split; [done|]. split; [done|].
      case_bool_decide as Hnone; rewrite no_model_registered in Hnone; by split.
    + intros [(error & ? & _)|(message' & hint & [= <-] & -> & Hhint & Hnohint)];
        [done|].
      do 2 f_equal. case_bool_decide as Hnone; rewrite no_model_registered in Hnone.
      * by rewrite Hhint.
      * by rewrite Hnohint.
  - split.
    + intros [= <-]. left. by exists error.
    + by intros [(error' & [= <-] & ->)|(message & hint & ? & _)].
Qed.

(** X23. Configuring a model is idempotent: described by the paths and
    middlewares it was configured with, a model gets the same configuration
    and the same line is logged. *)
Theorem configureModel_idempotent (apiDesc : IModelConfigurationRaw Middleware)
    modelName :
  let c := (configureModel toLowerCase Diaspora_models apiDesc modelName).1 in
  configureModel toLowerCase Diaspora_models
    (Described (Some (singular c)) (Some (plural c)) (Some (middlewares c))) modelName
  = configureModel toLowerCase Diaspora_models apiDesc modelName.
Proof. by destruct apiDesc as [|[given_singular|] [given_plural|] [given|]]. Qed.

End constructor_facts.

(** ** The discovery document *)

Section discovery_facts.
Import Express.
Implicit Types (configuredModels : list (string * ApiDesc)) (baseUrl : string).
#[local] Arguments describe : simpl never.

(** The route names of the configured models, in the order they are
    assigned in. *)
Lemma describe_lookup baseUrl response modelName apiDesc routeName :
  describe baseUrl response (modelName, apiDesc) !! routeName
  = if decide (routeName = plural_routeName apiDesc)
    then Some (plural_entry modelName baseUrl routeName)
    else if decide (routeName = singular_routeName apiDesc)
    then Some (singular_entry modelName baseUrl routeName)
    else response !! routeName.
Proof.
  unfold describe. simpl.
  destruct (decide (routeName = plural_routeName apiDesc)) as [->|Hplural].
  - by rewrite lookup_insert_eq.
  - rewrite lookup_insert_ne by done.
    destruct (decide (routeName = singular_routeName apiDesc)) as [->|Hsingular].
    + by rewrite lookup_insert_eq.
    + by rewrite lookup_insert_ne.
Qed.

Lemma foldl_describe_is_Some baseUrl configuredModels response routeName :
  is_Some (foldl (describe baseUrl) response configuredModels !! routeName)
  ↔ is_Some (response !! routeName)
    ∨ ∃ modelName apiDesc, (modelName, apiDesc) ∈ configuredModels
        ∧ (routeName = singular_routeName apiDesc
           ∨ routeName = plural_routeName apiDesc).
Proof.
  revert response.
  induction configuredModels as [|[modelName apiDesc] rest IH]; intros response; simpl.
  - split; [by left|]. intros [?|(? & ? & ?%elem_of_nil & _)]; done.
  - rewrite IH, describe_lookup. split.
    + intros [Hhere|(modelName' & apiDesc' & Hin & Hname)].
      * repeat case_decide; [right; exists modelName, apiDesc..|by left];
          (split; [apply list_elem_of_here|auto]).
      * right. exists modelName', apiDesc'. split; [by apply list_elem_of_further|done].
    + intros [Hsome|(modelName' & apiDesc' & Hin & Hname)].
      * left. by repeat case_decide.
      * apply elem_of_cons in Hin as [[= -> ->]|Hin].
        -- left. destruct Hname as [->| ->]; repeat case_decide; done.
        -- right. by exists modelName', apiDesc'.
Qed.

(** X25. The discovery document lists the route names of the configured
    models and nothing else: a key of the document is the singular route
    name or the plural route name of some configured model, and each of
    these is a key.  The response is a 200. *)
Theorem discovery_lists configuredModels baseUrl routeName :
  code (discovery configuredModels baseUrl) = 200%Z
  ∧ content (discovery configuredModels baseUrl)
    = Json (JObject (discovery_response configuredModels baseUrl))
  ∧ (is_Some (discovery_response configuredModels baseUrl !! routeName)
     ↔ ∃ modelName apiDesc, (modelName, apiDesc) ∈ configuredModels
         ∧ (routeName = singular_routeName apiDesc
            ∨ routeName = plural_routeName apiDesc)).
Proof.
  split; [done|]. split; [done|].
  unfold discovery_response. rewrite foldl_describe_is_Some, lookup_empty.
  split; [|by right]. by intros [[? ?]|?].
Qed.

(** X26. Every entry of the discovery document is an object with a
    description and with the canonical URL of its route: the base URL of the
    request followed by the very key the entry is under. *)
Theorem discovery_canonicalUrl configuredModels baseUrl routeName entry :
  discovery_response configuredModels baseUrl !! routeName = Some entry →
  ∃ o description,
    entry = JObject o
    ∧ o !! "description" = Some (JString description)
    ∧ o !! "canonicalUrl" = Some (JString (baseUrl ++ routeName)).
Proof.
  unfold discovery_response.
  assert (∀ response,
    (∀ entry, response !! routeName = Some entry →
       ∃ o description, entry = JObject o
         ∧ o !! "description" = Some (JString description)
         ∧ o !! "canonicalUrl" = Some (JString (baseUrl ++ routeName))) →
    ∀ entry, foldl (describe baseUrl) response configuredModels !! routeName
             = Some entry →
      ∃ o description, entry = JObject o
        ∧ o !! "description" = Some (JString description)
        ∧ o !! "canonicalUrl" = Some (JString (baseUrl ++ routeName))) as Hinv.
  { induction configuredModels as [|[modelName apiDesc] rest IH]; intros response Hresp;
      simpl; [done|].
    apply IH. intros entry'. rewrite describe_lookup.
    repeat case_decide; [intros [= <-]; by eexists _, _..|apply Hresp]. }
  revert entry. apply Hinv. intros entry' Hentry. by rewrite lookup_empty in Hentry.
Qed.

Lemma foldl_describe_distinct baseUrl configuredModels response :
  NoDup (configuredModels ≫= λ entry,
           [singular_routeName entry.2; plural_routeName entry.2]) →
  (∀ routeName,
     routeName ∈ (configuredModels ≫= λ entry,
                    [singular_routeName entry.2; plural_routeName entry.2]) →
     response !! routeName = None) →
  size (foldl (describe baseUrl) response configuredModels)
  = size response + 2 * length configuredModels
  ∧ ∀ modelName apiDesc, (modelName, apiDesc) ∈ configuredModels →
      foldl (describe baseUrl) response configuredModels !! singular_routeName apiDesc
      = Some (singular_entry modelName baseUrl (singular_routeName apiDesc))
      ∧ foldl (describe baseUrl) response configuredModels !! plural_routeName apiDesc
        = Some (plural_entry modelName baseUrl (plural_routeName apiDesc)).
Proof.
  revert response.
  induction configuredModels as [|[modelName apiDesc] rest IH]; intros response;
    simpl.
  - intros _ _. split; [lia|]. by intros ? ? ?%elem_of_nil.
  - intros Hdup Hfresh.
    apply NoDup_cons in Hdup as [Hsingular Hdup].
    apply NoDup_cons in Hdup as [Hplural Hdup].
    assert (singular_routeName apiDesc ≠ plural_routeName apiDesc) as Hne.
    { intros Heq. apply Hsingular. rewrite Heq. apply list_elem_of_here. }
    assert (∀ routeName,
      routeName ∈ (rest ≫= λ entry,
                     [singular_routeName entry.2; plural_routeName entry.2]) →
      describe baseUrl response (modelName, apiDesc) !! routeName = None) as Hfresh'.
    { intros routeName Hin. rewrite describe_lookup.
      repeat case_decide; subst.
      - done.
      - exfalso. apply Hsingular. by apply list_elem_of_further.
      - apply Hfresh. by do 2 apply list_elem_of_further. }
    destruct (IH _ Hdup Hfresh') as [Hsize Hentries]. split.
    + rewrite Hsize. unfold describe.
      rewrite map_size_insert_None, map_size_insert_None; [lia|..].
      * apply Hfresh. apply list_elem_of_here.
      * rewrite lookup_insert_ne by done.
        apply Hfresh. apply list_elem_of_further, list_elem_of_here.
    + assert (∀ routeName,
        routeName ∉ (rest ≫= λ entry,
                       [singular_routeName entry.2; plural_routeName entry.2]) →
        foldl (describe baseUrl) (describe baseUrl response (modelName, apiDesc)) rest
          !! routeName
        = describe baseUrl response (modelName, apiDesc) !! routeName) as Hkept.
      { clear. generalize (describe baseUrl response (modelName, apiDesc)).
        induction rest as [|[modelName' apiDesc'] rest IH]; intros acc routeName Hout;
          simpl; [done|].
        simpl in Hout. rewrite IH.
        - rewrite describe_lookup. repeat case_decide; subst; try done.
          + exfalso. apply Hout. apply list_elem_of_further, list_elem_of_here.
          + exfalso. apply Hout. apply list_elem_of_here.
        - intros Hin. apply Hout. by do 2 apply list_elem_of_further. }
      intros modelName' apiDesc' [[= -> ->]|Hin]%elem_of_cons; [|by apply Hentries].
      assert (singular_routeName apiDesc
              ∉ (rest ≫= λ entry,
                   [singular_routeName entry.2; plural_routeName entry.2]))
        as Hsingular'.
      { intros Hin. apply Hsingular. by apply list_elem_of_further. }
      rewrite (Hkept _ Hsingular'), (Hkept _ Hplural), !describe_lookup.
      repeat case_decide; done.
Qed.

(** X27. When the route names of the configured models are all distinct,
    the discovery document has two entries for each model, its own: the one
    under its singular route name describes a single item of that model and
    the one under its plural route name several items of it. *)
Theorem discovery_distinct configuredModels baseUrl :
  NoDup (configuredModels ≫= λ entry,
           [singular_routeName entry.2; plural_routeName entry.2]) →
  size (discovery_response configuredModels baseUrl) = 2 * length configuredModels
  ∧ ∀ modelName apiDesc, (modelName, apiDesc) ∈ configuredModels →
      discovery_response configuredModels baseUrl !! singular_routeName apiDesc
      = Some (singular_entry modelName baseUrl (singular_routeName apiDesc))
      ∧ discovery_response configuredModels baseUrl !! plural_routeName apiDesc
        = Some (plural_entry modelName baseUrl (plural_routeName apiDesc)).
Proof.
  intros Hdup. unfold discovery_response.
  destruct (foldl_describe_distinct baseUrl configuredModels ∅ Hdup) as [Hsize Hentries].
  { intros routeName _. apply lookup_empty. }
  split; [|done]. by rewrite Hsize, map_size_empty.
Qed.

Lemma foldl_describe_kept baseUrl configuredModels response routeName :
  routeName ∉ (configuredModels ≫= λ entry,
                 [singular_routeName entry.2; plural_routeName entry.2]) →
  foldl (describe baseUrl) response configuredModels !! routeName
  = response !! routeName.
Proof.
  revert response.
  induction configuredModels as [|[modelName apiDesc] rest IH]; intros response Hout;
    simpl; [done|].
  simpl in Hout. rewrite IH.
  - rewrite describe_lookup. repeat case_decide; subst; try done.
    + exfalso. apply Hout. apply list_elem_of_further, list_elem_of_here.
    + exfalso. apply Hout. apply list_elem_of_here.
  - intros Hin. apply Hout. by do 2 apply list_elem_of_further.
Qed.

(** X28. When configured models share a route name, the discovery
    document has, under that name, the entry of the last of them: the entry
    under the plural route name of a model is its own unless a later model
    uses that name, and so is the entry under its singular route name unless
    a later model, or its own plural route, uses it. *)
Theorem discovery_last_wins before modelName apiDesc after baseUrl :
  let later :=
    after ≫= λ entry, [singular_routeName entry.2; plural_routeName entry.2] in
  let response := discovery_response (before ++ (modelName, apiDesc) :: after) baseUrl in
  (plural_routeName apiDesc ∉ later →
   response !! plural_routeName apiDesc
   = Some (plural_entry modelName baseUrl (plural_routeName apiDesc)))
  ∧ (singular_routeName apiDesc ∉ later →
     singular_routeName apiDesc ≠ plural_routeName apiDesc →
     response !! singular_routeName apiDesc
     = Some (singular_entry modelName baseUrl (singular_routeName apiDesc))).
Proof.
  intros later response. unfold response, discovery_response.
  rewrite foldl_app. simpl. split.
  - intros Hlater. rewrite foldl_describe_kept, describe_lookup by done.
    by case_decide.
  - intros Hlater Hne. rewrite foldl_describe_kept, describe_lookup by done.
    repeat case_decide; done.
Qed.

End discovery_facts.

(** ** The statements at work on the reference instances *)

Section at_work.
Import Express.
#[local] Existing Instances Reference.engine Memory.model Memory.utils.
#[local] Open Scope list_scope.

(** [{skip: "5", where: "{\"name\":\"x\"}"}], by [ApiGenerator.parseQuery]
    and by the router's [parseQuery] *)
Lemma parseQuery_partition_witness :
  let queryObj : gmap string string := {[ "skip" := "5"; "where" := Sample.name_x ]} in
  let r := {| ApiGenerator.raw :=
                {[ "skip" := JNumber 5; "where" := Sample.named "x" ]};
              ApiGenerator.options := {[ "skip" := JNumber 5 ]};
              ApiGenerator.where_ := Sample.named "x" |} in
  let parsed := {| query := JObject {[ "where" := JString Sample.name_x ]};
                   options := {[ "skip" := JString "5" ]} |} in
  (ApiGenerator.parseQuery queryObj = Returns r
   ∧ JSON_parse Sample.name_x = Returns (ApiGenerator.where_ r)
   ∧ (ApiGenerator.options r !! "skip" = Some (JNumber 5)
      ↔ ("skip" ∈ QUERY_OPTS
         ∧ ∃ val, queryObj !! "skip" = Some val
                  ∧ JSON_parse val = Returns (JNumber 5))))
  ∧ (Express.parseQuery queryObj = Returns parsed
     ∧ ∃ o, query parsed = JObject o
            ∧ o !! "where" = Some (JString Sample.name_x)).
Proof.
  intros queryObj r parsed.
  assert (ApiGenerator.parseQuery queryObj = Returns r) as Hparse
    by (vm_compute; reflexivity).
  assert (Express.parseQuery queryObj = Returns parsed) as Hrouter
    by (vm_compute; reflexivity).
  destruct (parseQuery_partition (engine := Reference.engine)) as [Hapi Hexpress].
  split.
  - split; [exact Hparse|].
    destruct (Hapi queryObj r Hparse) as [Hoptions Hwhere].
    split; [|apply Hoptions].
    vm_compute in Hwhere. vm_compute. exact Hwhere.
  - split; [exact Hrouter|].
    destruct (Hexpress queryObj parsed Hrouter) as [_ Hquery].
    change (queryObj !! "query") with (@None string) in Hquery.
    destruct Hquery as (o & Ho & _ & Hwhere). exists o. split; [exact Ho|].
    apply Hwhere. vm_compute. reflexivity.
Defined.

(** C3, as stated, fails of the router's own [parseQuery], which the
    handlers call, on the example of the claim,
    [{skip: "5", where: "{\"name\":\"x\"}"}]: the option is the string
    ["5"], not the number 5, and the query is the object with the one key
    [where] and the undecoded string under it, not [{name: "x"}]. *)
Lemma parseQuery_partition_counterexample :
  let queryObj : gmap string string := {[ "skip" := "5"; "where" := Sample.name_x ]} in
  JSON_parse Sample.name_x = Returns (Sample.named "x")
  ∧ ∃ parsed,
      Express.parseQuery queryObj = Returns parsed
      ∧ options parsed = {[ "skip" := JString "5" ]}
      ∧ options parsed !! "skip" ≠ Some (JNumber 5)
      ∧ query parsed = JObject {[ "where" := JString Sample.name_x ]}
      ∧ query parsed ≠ Sample.named "x".
Proof.
  intros queryObj. split; [vm_compute; reflexivity|].
  eexists. split; [vm_compute; reflexivity|]. simpl.
  split; [reflexivity|]. split; [vm_compute; discriminate|].
  split; [reflexivity|]. vm_compute. discriminate.
Qed.

(** A query string without [where] comes back from its re-encoding. *)
Lemma parseQuery_reencode_stable_witness :
  let queryObj : gmap string string :=
    {[ "limit" := "1"; "name" := Reference.quoted "x" ]} in
  let r := {| ApiGenerator.raw := {[ "limit" := JNumber 1; "name" := JString "x" ]};
              ApiGenerator.options := {[ "limit" := JNumber 1 ]};
              ApiGenerator.where_ := Sample.named "x" |} in
  ∃ r', ApiGenerator.parseQuery
          (ApiGenerator.reencode {[ "name" := JString "x" ]} (ApiGenerator.options r))
        = Returns r'
        ∧ ApiGenerator.where_ r' = ApiGenerator.where_ r
        ∧ ApiGenerator.options r' = ApiGenerator.options r.
Proof.
  intros queryObj r.
  apply (parseQuery_reencode_stable queryObj r {[ "name" := JString "x" ]}).
  - vm_compute. reflexivity.
  - reflexivity.
  - intros key Hkey. apply lookup_singleton_None. intros <-.
    revert Hkey. compute_done.
  - intros key v [Hv|Hv].
    + apply lookup_singleton_Some in Hv as [_ <-]. vm_compute. reflexivity.
    + unfold r in Hv. simpl in Hv.
      apply lookup_singleton_Some in Hv as [_ <-]. vm_compute. reflexivity.
Defined.

(** C8, as stated, fails on [{where: "{\"limit\":1}"}]: the search clause
    is [{limit: 1}] and there is no option; re-encoded this is
    [{limit: "1"}], of which [limit] is an option and the search clause is
    empty. *)
Lemma parseQuery_reencode_counterexample :
  let queryObj : gmap string string := {[ "where" := Sample.limit_1 ]} in
  let predicate : gmap string json := {[ "limit" := JNumber 1 ]} in
  ∃ r r',
    ApiGenerator.parseQuery queryObj = Returns r
    ∧ ApiGenerator.where_ r = JObject predicate
    ∧ ApiGenerator.options r = ∅
    ∧ JSON_parse (JSON_stringify (JNumber 1)) = Returns (JNumber 1)
    ∧ ApiGenerator.reencode predicate (ApiGenerator.options r) = {[ "limit" := "1" ]}
    ∧ ApiGenerator.parseQuery (ApiGenerator.reencode predicate (ApiGenerator.options r))
      = Returns r'
    ∧ ApiGenerator.where_ r' = JObject ∅
    ∧ ApiGenerator.options r' = {[ "limit" := JNumber 1 ]}
    ∧ ApiGenerator.where_ r' ≠ ApiGenerator.where_ r
    ∧ ApiGenerator.options r' ≠ ApiGenerator.options r.
Proof.
  intros queryObj predicate.
  exists {| ApiGenerator.raw := {[ "where" := JObject predicate ]};
            ApiGenerator.options := ∅;
            ApiGenerator.where_ := JObject predicate |},
         {| ApiGenerator.raw := predicate;
            ApiGenerator.options := predicate;
            ApiGenerator.where_ := JObject ∅ |}.
  repeat split; try (vm_compute; reflexivity); simpl.
  - intros Heq. vm_compute in Heq. discriminate.
  - intros Heq. vm_compute in Heq. discriminate.
Qed.

(** [POST /user] with the body [{"name":"a"}] on the empty data source. *)
Lemma create_on_empty_query_witness :
  let req := Sample.request ∅ None (Sample.named "a") in
  let entity := {| Memory.ident := Some "1"; Memory.attrs := Sample.named "a" |} in
  _post req Sample.nobody
  = (Returns {| code := 201; content := Json (entity_toObject entity) |},
     {| store := {| Memory.rows := [("1", Sample.named "a")]; Memory.next := 2 |};
        calls := calls Sample.nobody ++ [call_spawn (req_body req);
                   call_persist (model_spawn (req_body req))] |})
  ∧ entity_toObject entity = JObject {[ "id" := JString "1"; "name" := JString "a" ]}.
Proof.
  intros req entity. split; [|vm_compute; reflexivity].
  apply (create_on_empty_query (model := Memory.model) _post req Sample.nobody
           {| query := JObject ∅; options := ∅ |} (JObject ∅)).
  - apply list_elem_of_here.
  - vm_compute. reflexivity.
  - reflexivity.
  - reflexivity.
  - vm_compute. reflexivity.
Defined.

(** [PUT /user/1] with the body [{"name":"b"}] on the row
    [{"name":"a","age":5}]: the row becomes [{"name":"b"}]. *)
Lemma replace_on_put_witness :
  let req := Sample.request ∅ (Some "1") (Sample.named "b") in
  let q := JObject {[ "id" := JString "1" ]} in
  let entity := {| Memory.ident := Some "1"; Memory.attrs := Sample.aged |} in
  let persisted := {| Memory.ident := Some "1"; Memory.attrs := Sample.named "b" |} in
  entity_attributes (entity_replaceAttributes (req_body req) entity) = req_body req
  ∧ _put req Sample.somebody
    = (Returns {| code := 200; content := Json (entity_toObject persisted) |},
       {| store := {| Memory.rows := [("1", Sample.named "b")]; Memory.next := 2 |};
          calls := calls Sample.somebody ++ [call_find q ∅;
            call_persist (entity_replaceAttributes (req_body req) entity)] |}).
Proof.
  intros req q entity persisted.
  assert (Express.parseQuery (req_query req)
          = Returns {| query := JObject ∅; options := ∅ |}) as Hparse
    by (vm_compute; reflexivity).
  assert (fold_id req (JObject ∅) = Returns q) as Hfold by (vm_compute; reflexivity).
  assert (lodash.isEmpty q = false) as Hfull by (vm_compute; reflexivity).
  destruct (replace_on_put (model := Memory.model) req Sample.somebody _ q
              Hparse Hfold Hfull) as [_ Hmatch].
  { reflexivity. }
  apply (Hmatch entity persisted (store Sample.somebody)).
  - vm_compute. reflexivity.
  - vm_compute. reflexivity.
Defined.

(** [GET /users?name="zz"] and [GET /user/7] on a data source where
    neither matches. *)
Lemma not_found_bodies_witness :
  let plural_req := Sample.request {[ "name" := "zz" ]} None JNull in
  let singular_req := Sample.request ∅ (Some "7") JNull in
  Express.get plural_req Sample.somebody
  = (Returns {| code := 404; content := Json (JArray []) |},
     {| store := store Sample.somebody;
        calls := calls Sample.somebody
          ++ [call_findMany (JObject {[ "name" := JString "zz" ]}) ∅] |})
  ∧ _get singular_req Sample.somebody
    = (Returns {| code := 404; content := NoBody |},
       {| store := store Sample.somebody;
          calls := calls Sample.somebody
            ++ [call_find (JObject {[ "id" := JString "7" ]}) ∅] |}).
Proof.
  intros plural_req singular_req. split.
  - assert (Express.parseQuery (req_query plural_req)
            = Returns {| query := JObject {[ "name" := JString "zz" ]}; options := ∅ |})
      as Hparse by (vm_compute; reflexivity).
    apply (proj1 (not_found_bodies (model := Memory.model)
                    plural_req Sample.somebody _ Hparse)).
    vm_compute. reflexivity.
  - assert (Express.parseQuery (req_query singular_req)
            = Returns {| query := JObject ∅; options := ∅ |})
      as Hparse by (vm_compute; reflexivity).
    apply (proj2 (not_found_bodies (model := Memory.model)
                    singular_req Sample.somebody _ Hparse)).
    + vm_compute. reflexivity.
    + vm_compute. reflexivity.
Defined.

(** [DELETE /users?name="zz"], which matches no row, and
    [DELETE /user/1], which matches one. *)
Lemma delete_always_succeeds_witness :
  let plural_req := Sample.request {[ "name" := "zz" ]} None JNull in
  let singular_req := Sample.request ∅ (Some "1") JNull in
  Express.delete plural_req Sample.somebody
  = (Returns {| code := 200; content := NoBody |},
     {| store := store Sample.somebody;
        calls := calls Sample.somebody
          ++ [call_deleteMany (JObject {[ "name" := JString "zz" ]}) ∅] |})
  ∧ _delete singular_req Sample.somebody
    = (Returns {| code := 200; content := NoBody |},
       {| store := {| Memory.rows := []; Memory.next := 2 |};
          calls := calls Sample.somebody
            ++ [call_delete (JObject {[ "id" := JString "1" ]}) ∅] |}).
Proof.
  intros plural_req singular_req. split.
  - assert (Express.parseQuery (req_query plural_req)
            = Returns {| query := JObject {[ "name" := JString "zz" ]}; options := ∅ |})
      as Hparse by (vm_compute; reflexivity).
    apply (proj2 (delete_always_succeeds (model := Memory.model)
                    plural_req Sample.somebody _ Hparse)).
    vm_compute. reflexivity.
  - assert (Express.parseQuery (req_query singular_req)
            = Returns {| query := JObject ∅; options := ∅ |})
      as Hparse by (vm_compute; reflexivity).
    apply (proj1 (delete_always_succeeds (model := Memory.model)
                    singular_req Sample.somebody _ Hparse)).
    + vm_compute. reflexivity.
    + vm_compute. reflexivity.
Defined.

(** C7, as stated, fails on [DELETE /user/42] where no entity has the
    identifier 42: the lookup finds nothing, and the response is a 200. *)
Lemma delete_missing_target_counterexample :
  let req := Sample.request ∅ (Some "42") JNull in
  let q := JObject {[ "id" := JString "42" ]} in
  model_find q ∅ (store Sample.somebody) = (Returns None, store Sample.somebody)
  ∧ _delete req Sample.somebody
    = (Returns {| code := 200; content := NoBody |},
       {| store := store Sample.somebody; calls := [call_delete q ∅] |})
  ∧ (∀ sent, (_delete req Sample.somebody).1 = Returns sent → code sent ≠ 404%Z).
Proof.
  intros req q. repeat split; try (vm_compute; reflexivity).
  intros sent [= <-]. vm_compute. discriminate.
Qed.

Lemma delete_missing_target_witness :
  let req := Sample.request ∅ (Some "42") JNull in
  let q := JObject {[ "id" := JString "42" ]} in
  _delete req Sample.somebody
  = (Returns {| code := 200; content := NoBody |},
     {| store := store Sample.somebody;
        calls := calls Sample.somebody ++ [call_delete q ∅] |})
  ∧ (_get req Sample.somebody).1 = Returns {| code := 404; content := NoBody |}.
Proof.
  intros req q.
  destruct (delete_missing_target (model := Memory.model) req Sample.somebody
              {| query := JObject ∅; options := ∅ |} q
              (store Sample.somebody) (store Sample.somebody))
    as (Hdelete & Hget & _).
  - vm_compute. reflexivity.
  - vm_compute. reflexivity.
  - vm_compute. reflexivity.
  - vm_compute. reflexivity.
  - split; [exact Hdelete|exact Hget].
Defined.

(** [GET /user?query=not-json] *)
Lemma malformed_query_no_call_witness :
  ∃ sent,
    _get (Sample.request {[ "query" := "not-json" ]} None JNull) Sample.somebody
    = (Returns sent, Sample.somebody)
    ∧ code sent = 400%Z.
Proof.
  apply (malformed_query_no_call (engine := Reference.engine) (model := Memory.model)
           _get _ _ (Undecodable (Reference.UnexpectedToken "o" 1))).
  - apply list_elem_of_here.
  - vm_compute. reflexivity.
Defined.

(** [POST /users?name="zz"] and [PUT /users?name="zz"] where no row has
    that name. *)
Lemma bulk_update_no_match_witness :
  let req := Sample.request {[ "name" := "zz" ]} None (Sample.named "b") in
  let q := JObject {[ "name" := JString "zz" ]} in
  Express.post req Sample.somebody
  = (Returns {| code := 404; content := Json (JArray []) |},
     {| store := store Sample.somebody;
        calls := calls Sample.somebody ++ [call_updateMany q (req_body req) ∅] |})
  ∧ Express.put req Sample.somebody
    = (Returns {| code := 404; content := Json (JArray []) |},
       {| store := store Sample.somebody;
          calls := calls Sample.somebody ++ [call_findMany q ∅; call_set_persist []] |}).
Proof.
  intros req q.
  assert (Express.parseQuery (req_query req) = Returns {| query := q; options := ∅ |})
    as Hparse by (vm_compute; reflexivity).
  destruct (bulk_update_no_match (model := Memory.model) req Sample.somebody _ Hparse)
    as [Hpost Hput].
  { vm_compute. reflexivity. }
  split.
  - apply Hpost. vm_compute. reflexivity.
  - apply (Hput (store Sample.somebody)).
    + vm_compute. reflexivity.
    + vm_compute. reflexivity.
Defined.

(** [DELETE /users?query=[1,] ] *)
Lemma malformed_query_response_witness :
  let queryObj : gmap string string := {[ "query" := "[1," ]} in
  Express.parseQuery queryObj = Throws (Undecodable Reference.UnexpectedEnd)
  ∧ Express.delete (Sample.request queryObj None JNull) Sample.nobody
    = (Returns {| code := 400;
                  content := Text ("Query property " ++ quote ++ "query" ++ quote
                    ++ " expected to be a valid JSON object:"
                    ++ error_toString Reference.UnexpectedEnd)%string |},
       Sample.nobody).
Proof.
  intros queryObj.
  destruct (malformed_query_response (engine := Reference.engine)
              (model := Memory.model)) as (_ & Hrouter & Hhandler).
  split.
  - apply Hrouter; [vm_compute; reflexivity|].
    exists "[1,", Reference.UnexpectedEnd.
    split; [vm_compute; reflexivity|]. split; [vm_compute; reflexivity|reflexivity].
  - apply (Hhandler Express.delete _ _ Reference.UnexpectedEnd).
    + unfold singular_route, plural_route. simpl. do 7 apply list_elem_of_further.
      apply list_elem_of_here.
    + vm_compute. reflexivity.
Defined.

(** C4, as stated, fails at the request boundary.  [GET /user?foo=not-json]:
    the value does not decode, and [ApiGenerator.parseQuery] throws its
    [MalformedQuery]; yet the handler, whose own [parseQuery] leaves that
    value as it is, answers no 400 and goes on to the lookup. *)
Lemma malformed_query_counterexample :
  JSON_parse "not-json" = Throws (Reference.UnexpectedToken "o" 1)
  ∧ ApiGenerator.parseQuery {[ "foo" := "not-json" ]}
    = Throws (ApiGenerator.MalformedQuery
                (ApiGenerator.mkApiSyntaxError "Invalid syntax parsing query"
                   (Reference.UnexpectedToken "o" 1)))
  ∧ _get (Sample.request {[ "foo" := "not-json" ]} None JNull) Sample.nobody
    = (Returns {| code := 404; content := NoBody |},
       {| store := store Sample.nobody;
          calls := [call_find (JObject {[ "foo" := JString "not-json" ]}) ∅] |}).
Proof. repeat split; vm_compute; reflexivity. Qed.

(** [GET /user?hasOwnProperty=1]: every value decodes, and
    [ApiGenerator.parseQuery] returns; the router's [parseQuery] throws
    on the call of the shadowed method, inside the [try], and the handler
    answers 400 without a call to the model layer. *)
Lemma _get_shadowed :
  let queryObj : gmap string string := {[ "hasOwnProperty" := "1" ]} in
  (∃ r, ApiGenerator.parseQuery queryObj = Returns r)
  ∧ Express.parseQuery queryObj = Throws NotAFunction
  ∧ _get (Sample.request queryObj None JNull) Sample.somebody
    = (Returns {| code := 400; content := Text (malformed NotAFunction) |},
       Sample.somebody).
Proof.
  intros queryObj. split; [eexists; vm_compute; reflexivity|].
  split; vm_compute; reflexivity.
Qed.

(** [DELETE /user/7?query=5]: the query is the number 5, to which no [id]
    can be assigned. *)
Lemma _delete_TypeError :
  _delete (Sample.request {[ "query" := "5" ]} (Some "7") JNull) Sample.somebody
  = (Throws (CannotCreateProperty "id" (JNumber 5)), Sample.somebody).
Proof. vm_compute. reflexivity. Qed.

End at_work.

(** ** The further statements at work *)

Section further_at_work.
Import Express.
#[local] Existing Instances Reference.engine Memory.model Memory.utils.
#[local] Open Scope list_scope.

(** [?skip=5&query={"name":"x"}] *)
Lemma router_parseQuery_partition_witness :
  let queryObj : gmap string string := {[ "skip" := "5"; "query" := Sample.name_x ]} in
  let parsed := {| query := Sample.named "x"; options := {[ "skip" := JString "5" ]} |} in
  JSON_parse Sample.name_x = Returns (query parsed)
  ∧ (options parsed !! "skip" = Some (JString "5")
     ↔ ("skip" ∈ QUERY_OPTS
        ∧ ∃ val, queryObj !! "skip" = Some val ∧ JString "5" = JString val)).
Proof.
  intros queryObj parsed.
  assert (Express.parseQuery queryObj = Returns parsed) as Hparse
    by (vm_compute; reflexivity).
  destruct (router_parseQuery_partition queryObj parsed Hparse) as [Hoptions Hquery].
  split; [|apply Hoptions].
  vm_compute in Hquery. vm_compute. exact Hquery.
Defined.

(** [DELETE /user/7?query=5] *)
Lemma singular_escape_witness :
  let req := Sample.request {[ "query" := "5" ]} (Some "7") JNull in
  _delete req Sample.somebody
  = (Throws (CannotCreateProperty "id" (JNumber 5)), Sample.somebody).
Proof.
  intros req.
  apply (singular_escape (engine := Reference.engine) (model := Memory.model)
           _delete req Sample.somebody {| query := JNumber 5; options := ∅ |} "7").
  - unfold singular_route. do 3 apply list_elem_of_further. apply list_elem_of_here.
  - vm_compute. reflexivity.
  - reflexivity.
  - discriminate.
  - simpl. exact I.
Defined.

(** [GET /user/1] *)
Lemma _get_found_witness :
  let req := Sample.request ∅ (Some "1") JNull in
  let q := JObject {[ "id" := JString "1" ]} in
  let entity := {| Memory.ident := Some "1"; Memory.attrs := Sample.aged |} in
  _get req Sample.somebody
  = (Returns {| code := 200; content := Json (entity_toObject entity) |},
     {| store := store Sample.somebody;
        calls := calls Sample.somebody ++ [call_find q ∅] |}).
Proof.
  intros req q entity.
  apply (_get_found (model := Memory.model) req Sample.somebody
           {| query := JObject ∅; options := ∅ |}).
  - vm_compute. reflexivity.
  - vm_compute. reflexivity.
  - vm_compute. reflexivity.
Defined.

(** [GET /users] *)
Lemma get_resolved_witness :
  let req := Sample.request ∅ None JNull in
  let set := [{| Memory.ident := Some "1"; Memory.attrs := Sample.aged |}] in
  Express.get req Sample.somebody
  = (Returns {| code := if bool_decide (length set = 0) then 404 else 200;
                content := Json (set_toObject set) |},
     {| store := store Sample.somebody;
        calls := calls Sample.somebody ++ [call_findMany (JObject ∅) ∅] |}).
Proof.
  intros req set.
  apply (get_resolved (model := Memory.model) req Sample.somebody
           {| query := JObject ∅; options := ∅ |}).
  - vm_compute. reflexivity.
  - vm_compute. reflexivity.
Defined.

(** [POST /user/1] with the body [{"name":"b"}]: the age stays. *)
Lemma _post_updated_witness :
  let req := Sample.request ∅ (Some "1") (Sample.named "b") in
  let q := JObject {[ "id" := JString "1" ]} in
  let merged := JObject {[ "name" := JString "b"; "age" := JNumber 5 ]} in
  let entity := {| Memory.ident := Some "1"; Memory.attrs := merged |} in
  _post req Sample.somebody
  = (Returns {| code := 200; content := Json (entity_toObject entity) |},
     {| store := {| Memory.rows := [("1", merged)]; Memory.next := 2 |};
        calls := calls Sample.somebody ++ [call_update q (req_body req) ∅] |}).
Proof.
  intros req q merged entity.
  apply (_post_updated (model := Memory.model) req Sample.somebody
           {| query := JObject ∅; options := ∅ |}).
  - vm_compute. reflexivity.
  - vm_compute. reflexivity.
  - vm_compute. reflexivity.
  - vm_compute. reflexivity.
Defined.

(** [POST /users] with the body [[{"name":"a"},{"name":"b"}]] *)
Lemma bulk_create_witness :
  let req := Sample.request ∅ None (JArray [Sample.named "a"; Sample.named "b"]) in
  let set := [{| Memory.ident := Some "1"; Memory.attrs := Sample.named "a" |};
              {| Memory.ident := Some "2"; Memory.attrs := Sample.named "b" |}] in
  Express.post req Sample.nobody
  = (Returns {| code := 201; content := Json (set_toObject set) |},
     {| store := {| Memory.rows := [("1", Sample.named "a"); ("2", Sample.named "b")];
                    Memory.next := 3 |};
        calls := calls Sample.nobody ++ [call_spawnMany (req_body req);
                   call_set_persist (model_spawnMany (req_body req))] |}).
Proof.
  intros req set.
  apply (bulk_create (model := Memory.model) Express.post req Sample.nobody
           {| query := JObject ∅; options := ∅ |}).
  - apply list_elem_of_here.
  - vm_compute. reflexivity.
  - vm_compute. reflexivity.
  - vm_compute. reflexivity.
Defined.

(** [POST /users?name=a] with the body [{"name":"b"}], where two rows
    have that name *)
Lemma bulk_update_resolved_witness :
  let req := Sample.request {[ "name" := "a" ]} None (Sample.named "b") in
  let w := Memory.world [("1", Sample.aged); ("2", Sample.named "a")] 3 in
  let q := JObject {[ "name" := JString "a" ]} in
  let renamed := JObject {[ "name" := JString "b"; "age" := JNumber 5 ]} in
  let updated := [{| Memory.ident := Some "1"; Memory.attrs := renamed |};
                  {| Memory.ident := Some "2"; Memory.attrs := Sample.named "b" |}] in
  Express.post req w
  = (Returns {| code := if bool_decide (length updated = 0) then 404 else 200;
                content := Json (set_toObject updated) |},
     {| store := {| Memory.rows := [("1", renamed); ("2", Sample.named "b")];
                    Memory.next := 3 |};
        calls := calls w ++ [call_updateMany q (req_body req) ∅] |}).
Proof.
  intros req w q renamed updated.
  apply (bulk_update_resolved (engine := Reference.engine) (model := Memory.model)
           req w {| query := q; options := ∅ |} updated).
  - vm_compute. reflexivity.
  - vm_compute. reflexivity.
  - vm_compute. reflexivity.
Defined.

(** [POST /user] with the body [null], which cannot be persisted *)
Lemma singular_rejected_witness :
  let req := Sample.request ∅ None JNull in
  _post req Sample.nobody
  = (Returns (respondError res "ValidationError"),
     {| store := store Sample.nobody;
        calls := calls Sample.nobody ++ [call_spawn (req_body req);
                   call_persist (model_spawn (req_body req))] |})
  ∧ respondError res "ValidationError"
    = {| code := 400; content := Text "ValidationError" |}.
Proof.
  intros req. split; [|vm_compute; reflexivity].
  destruct (singular_rejected (model := Memory.model) req Sample.nobody
              {| query := JObject ∅; options := ∅ |} (JObject ∅)
              "ValidationError" (store Sample.nobody))
    as (_ & _ & Hcreate & _).
  - vm_compute. reflexivity.
  - vm_compute. reflexivity.
  - apply Hcreate.
    + vm_compute. reflexivity.
    + vm_compute. reflexivity.
    + apply list_elem_of_here.
Defined.

(** [PUT /users?name=a] with the body [null] *)
Lemma plural_rejected_witness :
  let req := Sample.request {[ "name" := "a" ]} None JNull in
  let q := JObject {[ "name" := JString "a" ]} in
  let found := [{| Memory.ident := Some "1"; Memory.attrs := Sample.aged |}] in
  Express.put req Sample.somebody
  = (Returns (respondError res "ValidationError"),
     {| store := store Sample.somebody;
        calls := calls Sample.somebody ++ [call_findMany q ∅;
          call_set_persist (entity_replaceAttributes (req_body req) <$> found)] |}).
Proof.
  intros req q found.
  destruct (plural_rejected (model := Memory.model) req Sample.somebody
              {| query := q; options := ∅ |}
              "ValidationError" (store Sample.somebody))
    as (_ & _ & _ & _ & _ & Hreplace).
  - vm_compute. reflexivity.
  - apply (Hreplace eq_refl found (store Sample.somebody)).
    + vm_compute. reflexivity.
    + vm_compute. reflexivity.
Defined.

(** [GET /user/1]: the in-memory [find] leaves the rows as they are. *)
Lemma get_reads_only_witness :
  store (_get (Sample.request ∅ (Some "1") JNull) Sample.somebody).2
  = store Sample.somebody.
Proof.
  apply (get_reads_only (model := Memory.model)). by intros q o s.
Defined.

(** [DELETE /user/1?id=9] deletes the entity 1. *)
Lemma path_id_overrides_witness :
  _delete (Sample.request {[ "id" := "9" ]} (Some "1") JNull) Sample.somebody
  = _delete (Sample.request (base.delete "id" {[ "id" := "9" ]}) (Some "1") JNull)
      Sample.somebody.
Proof.
  refine (path_id_overrides (engine := Reference.engine) (model := Memory.model)
            _delete (Sample.request {[ "id" := "9" ]} (Some "1") JNull)
            Sample.somebody "1" _ _ _ _).
  - unfold singular_route. do 3 apply list_elem_of_further. apply list_elem_of_here.
  - vm_compute. reflexivity.
  - reflexivity.
  - discriminate.
Defined.

(** [POST /user?limit=3]: the only key is an option, the query is empty. *)
Lemma effective_query_empty_witness :
  let req := Sample.request {[ "limit" := "3" ]} None (Sample.named "a") in
  lodash.isEmpty (JObject ∅) = true
  ↔ (∀ id, req_params_1 req = Some id → id = EmptyString)
    ∧ (∀ key val, req_query req !! key = Some val → key ∈ QUERY_OPTS).
Proof.
  intros req.
  apply (effective_query_empty (engine := Reference.engine) req
           {| query := JObject ∅; options := {[ "limit" := JString "3" ]} |}).
  - vm_compute. reflexivity.
  - vm_compute. reflexivity.
  - reflexivity.
Defined.

(** [?limit=1&name="x"] *)
Lemma parseQuery_raw_split_witness :
  let queryObj : gmap string string :=
    {[ "limit" := "1"; "name" := Reference.quoted "x" ]} in
  let r := {| ApiGenerator.raw := {[ "limit" := JNumber 1; "name" := JString "x" ]};
              ApiGenerator.options := {[ "limit" := JNumber 1 ]};
              ApiGenerator.where_ := Sample.named "x" |} in
  dom (ApiGenerator.raw r) = dom queryObj
  ∧ ∃ predicate, ApiGenerator.where_ r = JObject predicate
      ∧ ApiGenerator.options r ∪ predicate = ApiGenerator.raw r
      ∧ ApiGenerator.options r ##ₘ predicate.
Proof.
  intros queryObj r.
  assert (ApiGenerator.parseQuery queryObj = Returns r) as Hparse
    by (vm_compute; reflexivity).
  destruct (parseQuery_raw_split queryObj r Hparse) as [Hdom Hsplit].
  split; [exact Hdom|]. apply Hsplit. vm_compute. reflexivity.
Defined.

(** [?limit=1&name="x"] and [?limit=1&age=5] have the same options. *)
Lemma parseQuery_depends_witness :
  let queryObj : gmap string string :=
    {[ "limit" := "1"; "name" := Reference.quoted "x" ]} in
  let queryObj' : gmap string string := {[ "limit" := "1"; "age" := "5" ]} in
  let r := {| ApiGenerator.raw := {[ "limit" := JNumber 1; "name" := JString "x" ]};
              ApiGenerator.options := {[ "limit" := JNumber 1 ]};
              ApiGenerator.where_ := Sample.named "x" |} in
  let r' := {| ApiGenerator.raw := {[ "limit" := JNumber 1; "age" := JNumber 5 ]};
               ApiGenerator.options := {[ "limit" := JNumber 1 ]};
               ApiGenerator.where_ := JObject {[ "age" := JNumber 5 ]} |} in
  ApiGenerator.options r = ApiGenerator.options r'.
Proof.
  intros queryObj queryObj' r r'.
  apply (parseQuery_depends queryObj queryObj' r r').
  - vm_compute. reflexivity.
  - vm_compute. reflexivity.
  - intros key Hkey. unfold QUERY_OPTS in Hkey.
    repeat (apply elem_of_cons in Hkey as [->|Hkey]); try (vm_compute; reflexivity).
    by apply elem_of_nil in Hkey.
Defined.

(** [?foo=not-json] *)
Lemma parseQuery_Throws_inv_witness :
  let queryObj : gmap string string := {[ "foo" := "not-json" ]} in
  let e := ApiGenerator.MalformedQuery
             (ApiGenerator.mkApiSyntaxError "Invalid syntax parsing query"
                (Reference.UnexpectedToken "o" 1)) in
  ∃ key val error,
    queryObj !! key = Some val ∧ JSON_parse val = Throws error
    ∧ e = ApiGenerator.MalformedQuery
            (ApiGenerator.mkApiSyntaxError "Invalid syntax parsing query" error).
Proof.
  intros queryObj e. apply (parseQuery_Throws_inv (H := Reference.engine) queryObj e).
  vm_compute. reflexivity.
Defined.

(** [?where={"limit":1}], which does not come back entry by entry, comes
    back under the key [where]. *)
Lemma parseQuery_where_stable_witness :
  let queryObj : gmap string string := {[ "where" := Sample.limit_1 ]} in
  let predicate := JObject {[ "limit" := JNumber 1 ]} in
  let r := {| ApiGenerator.raw := {[ "where" := predicate ]};
              ApiGenerator.options := ∅;
              ApiGenerator.where_ := predicate |} in
  ∃ r', ApiGenerator.parseQuery
          (ApiGenerator.reencode {[ "where" := ApiGenerator.where_ r ]}
             (ApiGenerator.options r))
        = Returns r'
        ∧ ApiGenerator.where_ r' = ApiGenerator.where_ r
        ∧ ApiGenerator.options r' = ApiGenerator.options r.
Proof.
  intros queryObj predicate r.
  apply (parseQuery_where_stable queryObj r).
  - vm_compute. reflexivity.
  - vm_compute. reflexivity.
  - intros key v Hv. unfold r in Hv. simpl in Hv. by rewrite lookup_empty in Hv.
Defined.

(** Properties with an [id], an [idHash] and a [name] *)
Lemma setIdFromIdHash_strips_witness :
  let properties : gmap string json :=
    {[ "id" := JString "1"; "idHash" := JObject {[ "memory" := JString "1" ]};
       "name" := JString "a" ]} in
  base.delete "idHash" properties !! "idHash" = None
  ∧ base.delete "idHash" properties !! "id" = Some properties ≫= (.!! "id").
Proof.
  intros properties.
  destruct (proj2 (setIdFromIdHash_strips Some properties)
              (base.delete "idHash" properties) eq_refl) as [Hgone Hkept].
  split; [exact Hgone|]. by apply Hkept.
Defined.

(** The model [User] exposed under the singular path [person]: its plural
    path is [users]. *)
Lemma constructor_configures_witness :
  let configured :=
    [("User", ApiGenerator.Described (Middleware := unit) (Some "person") None None)] in
  ∃ g c,
    ApiGenerator.constructor Sample.lower Sample.as_given {[ "User" := tt ]}
      configured tt
    = Returns g
    ∧ ApiGenerator._modelsConfiguration g !! 0 = Some ("User", c)
    ∧ ApiGenerator.singular c = "person"
    ∧ ApiGenerator.plural c = "users"
    ∧ ApiGenerator.model c = Some tt.
Proof.
  intros configured.
  destruct (constructor_configures Sample.lower Sample.as_given {[ "User" := tt ]}
              configured tt (Some configured) eq_refl)
    as (g & Hg & _ & _ & _ & Hlookup).
  destruct (Hlookup 0 "User" (ApiGenerator.Described (Some "person") None None) eq_refl)
    as (c & Hc & Hsingular & Hplural & Hmodel).
  exists g, c. split; [exact Hg|]. split; [exact Hc|]. split; [exact Hsingular|].
  split; [exact Hplural|]. rewrite Hmodel. vm_compute. reflexivity.
Defined.

(** An unknown model while no model is registered *)
Lemma constructor_rethrows_witness :
  ApiGenerator.constructor (T := unit) (Model := unit)
    Sample.lower Sample.unknown_model ∅ [] tt
  = Throws (ApiGenerator.ReferenceError
      ("Tried to configure Diaspora Server with unknown model. "
       ++ "Original message: " ++ "Unknown model" ++ "."
       ++ (ApiGenerator.newline ++ "See https://goo.gl/Auj3DB for more infos."))%string).
Proof.
  apply (constructor_rethrows (T := unit) (Model := unit)
           Sample.lower Sample.unknown_model ∅ [] tt).
  right. eexists "Unknown model", _. split; [reflexivity|]. split; [reflexivity|].
  split; [reflexivity|]. intros Hne. by destruct Hne.
Defined.

(** The entry of [/users] when the router is mounted on [/api] *)
Lemma discovery_canonicalUrl_witness :
  ∃ o description,
    plural_entry "User" "/api" "/users" = JObject o
    ∧ o !! "description" = Some (JString description)
    ∧ o !! "canonicalUrl" = Some (JString ("/api" ++ "/users")%string).
Proof.
  apply (discovery_canonicalUrl Sample.exposed "/api" "/users").
  vm_compute. reflexivity.
Defined.

(** Two models, four entries *)
Lemma discovery_distinct_witness :
  size (discovery_response Sample.exposed "/api") = 2 * length Sample.exposed
  ∧ ∀ modelName apiDesc, (modelName, apiDesc) ∈ Sample.exposed →
      discovery_response Sample.exposed "/api" !! singular_routeName apiDesc
      = Some (singular_entry modelName "/api" (singular_routeName apiDesc))
      ∧ discovery_response Sample.exposed "/api" !! plural_routeName apiDesc
        = Some (plural_entry modelName "/api" (plural_routeName apiDesc)).
Proof.
  apply (discovery_distinct Sample.exposed "/api"). compute_done.
Defined.

(** Two models with the plural path [items]: the entry is that of the
    second. *)
Lemma discovery_last_wins_witness :
  let first := ("Book", {| desc_singular := Some "book"; desc_plural := Some "items" |}) in
  let second := {| desc_singular := Some "disc"; desc_plural := Some "items" |} in
  discovery_response ([first] ++ [("Disc", second)]) "/api" !! "/items"
  = Some (plural_entry "Disc" "/api" "/items").
Proof.
  intros first second.
  apply (proj1 (discovery_last_wins [first] "Disc" second [] "/api")).
  apply not_elem_of_nil.
Defined.

(** [?limit=1&name="x"]: the search clause has no reserved key. *)
Lemma parseQuery_no_where_witness :
  let queryObj : gmap string string :=
    {[ "limit" := "1"; "name" := Reference.quoted "x" ]} in
  let r := {| ApiGenerator.raw := {[ "limit" := JNumber 1; "name" := JString "x" ]};
              ApiGenerator.options := {[ "limit" := JNumber 1 ]};
              ApiGenerator.where_ := Sample.named "x" |} in
  ∃ predicate, ApiGenerator.where_ r = JObject predicate
    ∧ ∀ key, key ∈ "where" :: QUERY_OPTS → predicate !! key = None.
Proof.
  intros queryObj r. apply (parseQuery_no_where (H := Reference.engine) queryObj r).
  - vm_compute. reflexivity.
  - vm_compute. reflexivity.
Defined.

End further_at_work.
